(** * Task Manager API: the request handlers of server.js

    A shallow embedding of the Express handlers of the Task Manager
    back end (server.js: the validators, the bearer-token check and the
    profile and task routes) together with the client code that feeds
    them (App.jsx, SafetyComponents.jsx and UserProfile.jsx: the text
    inputs, the actions that send requests, the filters and the new-user
    test), the properties of the written specification that concern
    them, and further properties read off the code.

    Conventions.
    - A JavaScript string is the list of its UTF-16 code units, so that
      [length] is the [.length] the validators test.
    - A JSON member of a request body is a [jsval]; [JUndefined] stands
      for a member that is absent.
    - [new Date()] is the clock value [now] handed to a handler.
    - The MongoDB collections are explicit state: tasks are keyed by
      their [_id] (the primary key), profiles are the list of stored
      documents.
    - The store holds text as UTF-8: a surrogate code unit without its
      partner is written as U+FFFD, so a document that is read back
      ([toWellFormed]) can differ from the one the handler built.
    - Mongoose casts an update to the schema before it is sent (a
      member it cannot cast makes the call throw) and fills the
      defaults of the schema into a document it reads ([hydrate]).
    - What belongs to packages outside the repository (jsonwebtoken, the
      WHATWG URL parser, two switches of Mongoose whose default differs
      between major versions, the decimal text of a number, the cast of
      a preferences member that is no plain object) is the record
      [Env]; nothing is assumed about it beyond what a statement
      says.
    - The middleware in front of the routes (CORS, JSON body parsing and
      the rate limiter) is not part of the embedded functions: a request
      here is one that has been handed to its route. *)

From Stdlib Require Import ZArith NArith Ascii String.
From stdpp Require Import gmap list sorting pretty.

Local Open Scope N_scope.

(** ** JavaScript strings and values *)

Abbreviation jsstring := (list N).

(** A string literal of the source, as code units. *)
Fixpoint lit (s : string) : jsstring :=
  match s with
  | EmptyString => []
  | String a s' => N_of_ascii a :: lit s'
  end.

Inductive jsval :=
  | JUndefined
  | JNull
  | JBool (b : bool)
  | JNum (n : Z)
  | JStr (s : jsstring)
  | JObj.

(** The truth value a conditional gives to a value ([x ? a : b], [!x],
    [x || y]).  JSON has no NaN, so a number is falsy only when it is
    zero; arrays and objects ([JObj]) are truthy. *)
Definition truthy (v : jsval) : bool :=
  match v with
  | JUndefined | JNull => false
  | JBool b => b
  | JNum n => negb (n =? 0)%Z
  | JStr s => negb (bool_decide (s = []))
  | JObj => true
  end.

Definition is_undefined (v : jsval) : bool :=
  match v with JUndefined => true | _ => false end.

(** ECMAScript WhiteSpace and LineTerminator code units, the ones
    [String.prototype.trim] removes. *)
Definition isWhiteSpace (c : N) : bool :=
  (c =? 9) || (c =? 10) || (c =? 11) || (c =? 12) || (c =? 13) ||
  (c =? 32) || (c =? 160) || (c =? 5760) ||
  ((8192 <=? c) && (c <=? 8202)) ||
  (c =? 8232) || (c =? 8233) || (c =? 8239) || (c =? 8287) ||
  (c =? 12288) || (c =? 65279).

Fixpoint trimStart (s : jsstring) : jsstring :=
  match s with
  | [] => []
  | c :: s' => if isWhiteSpace c then trimStart s' else s
  end.

Definition trimEnd (s : jsstring) : jsstring :=
  rev (trimStart (rev s)).

Definition trim (s : jsstring) : jsstring := trimEnd (trimStart s).

Definition lt_sign : N := 60.
Definition gt_sign : N := 62.

Definition isAngle (c : N) : bool := (c =? lt_sign) || (c =? gt_sign).

(** [input.replace(/[<>]/g, '')] *)
Definition stripAngles (s : jsstring) : jsstring :=
  List.filter (fun c => negb (isAngle c)) s.

(** The [xss] package, default options, on text: outside of tags the
    filter only escapes the two angle brackets.  [sanitizeInput] removes
    every angle bracket before it calls [xss], so no call of the program
    ever starts a tag and the tag white list is not modelled. *)
Fixpoint xss (s : jsstring) : jsstring :=
  match s with
  | [] => []
  | c :: s' =>
      if c =? lt_sign then lit "&lt;" ++ xss s'
      else if c =? gt_sign then lit "&gt;" ++ xss s'
      else c :: xss s'
  end.

(** ** Input sanitization and validation (server.js) *)

Definition sanitizeInput (input : jsval) : jsstring :=
  match input with
  | JStr s => xss (trim (stripAngles s))
  | _ => []
  end.

Definition validateTitle (title : jsval) : bool :=
  match title with
  | JStr s =>
      let trimmed := trim s in
      (0 <? length trimmed)%nat && (length trimmed <=? 100)%nat
  | _ => false
  end.

Definition validateDisplayName (name : jsval) : bool :=
  match name with
  | JStr s =>
      let trimmed := trim s in
      (0 <? length trimmed)%nat && (length trimmed <=? 50)%nat
  | _ => false
  end.

Definition validateBio (bio : jsval) : bool :=
  match bio with
  | JStr s => (length s <=? 500)%nat
  | _ => true
  end.

(** [new URL(url)] belongs to the platform; [parses url] says that it
    does not throw. *)
Definition validateAvatarUrl (parses : jsstring -> bool) (url : jsval) : bool :=
  match url with
  | JStr s =>
      if negb (truthy url) then true
      else if (500 <? length s)%nat then false
      else parses s
  | _ => true
  end.

(** ** The generated avatar (server.js, generateShapesAvatar) *)

(** [Buffer.from(userId)]: the UTF-8 bytes of a string given by its
    UTF-16 code units.  A surrogate pair is one code point; a lone
    surrogate is encoded as U+FFFD. *)
Definition isHighSurrogate (c : N) : bool := (55296 <=? c) && (c <=? 56319).
Definition isLowSurrogate (c : N) : bool := (56320 <=? c) && (c <=? 57343).

Definition utf8_replacement : list N := [239; 191; 189].

Definition utf8_3 (c : N) : list N :=
  [224 + c / 4096; 128 + (c / 64) mod 64; 128 + c mod 64].

Definition utf8_4 (hi lo : N) : list N :=
  let cp := 65536 + (hi - 55296) * 1024 + (lo - 56320) in
  [240 + cp / 262144; 128 + (cp / 4096) mod 64;
   128 + (cp / 64) mod 64; 128 + cp mod 64].

Fixpoint utf8 (s : jsstring) : list N :=
  match s with
  | [] => []
  | c :: s' =>
      if c <? 128 then c :: utf8 s'
      else if c <? 2048 then (192 + c / 64) :: (128 + c mod 64) :: utf8 s'
      else if isHighSurrogate c then
        match s' with
        | d :: s'' =>
            if isLowSurrogate d then utf8_4 c d ++ utf8 s''
            else utf8_replacement ++ utf8 s'
        | [] => utf8_replacement
        end
      else if isLowSurrogate c then utf8_replacement ++ utf8 s'
      else utf8_3 c ++ utf8 s'
  end.

(** The base64 alphabet: A-Z, a-z, 0-9, plus and slash. *)
Definition base64_char (n : N) : N :=
  if n <? 26 then 65 + n
  else if n <? 52 then 97 + (n - 26)
  else if n <? 62 then 48 + (n - 52)
  else if n =? 62 then 43
  else 47.

Definition pad_char : N := 61.

(** [buf.toString('base64')] *)
Fixpoint base64 (bytes : list N) : jsstring :=
  match bytes with
  | [] => []
  | [a] =>
      [base64_char (a / 4); base64_char ((a mod 4) * 16); pad_char; pad_char]
  | [a; b] =>
      [base64_char (a / 4); base64_char ((a mod 4) * 16 + b / 16);
       base64_char ((b mod 16) * 4); pad_char]
  | a :: b :: c :: rest =>
      base64_char (a / 4) :: base64_char ((a mod 4) * 16 + b / 16)
      :: base64_char ((b mod 16) * 4 + c / 64) :: base64_char (c mod 64)
      :: base64 rest
  end.

Definition isAlnum (c : N) : bool :=
  ((97 <=? c) && (c <=? 122)) || ((65 <=? c) && (c <=? 90)) ||
  ((48 <=? c) && (c <=? 57)).

Definition generateShapesAvatar (userId : jsstring) : jsstring :=
  let seed := take 10 (List.filter isAlnum (base64 (utf8 userId))) in
  let backgroundColor := lit "0f0f23" in
  let primaryColor := lit "6366f1" in
  lit "https://api.dicebear.com/7.x/shapes/svg?seed=" ++ seed
  ++ lit "&backgroundColor=" ++ backgroundColor
  ++ lit "&primaryColor=" ++ primaryColor.

(** ** Text as the store holds it *)

(** MongoDB holds a string as UTF-8, and UTF-8 has no encoding of a
    surrogate that is not part of a pair: the driver writes U+FFFD in
    its place.  What is read back for a string is therefore the string
    with every high surrogate that no low surrogate follows, and every
    low surrogate that no high surrogate precedes, replaced. *)
Definition replacement_character : N := 65533.

Definition starts_with_low (s : jsstring) : bool :=
  match s with
  | d :: _ => isLowSurrogate d
  | [] => false
  end.

Fixpoint well_formed_from (after_high : bool) (s : jsstring) : jsstring :=
  match s with
  | [] => []
  | c :: s' =>
      (if isHighSurrogate c then
         if starts_with_low s' then c else replacement_character
       else if isLowSurrogate c then
         if after_high then c else replacement_character
       else c)
      :: well_formed_from (isHighSurrogate c) s'
  end.

Definition toWellFormed (s : jsstring) : jsstring := well_formed_from false s.

(** ** What the program takes from outside *)

(** The payload of a verified access token: [decoded.sub],
    [decoded.name], [decoded.email].  The identity provider issues every
    token with a subject; name and email are optional claims.  These
    are texts of the identity provider and are taken as it issues them,
    well formed, so that the store holds them as they are. *)
Record Claims := {
  sub : jsstring;
  name : option jsstring;
  email : option jsstring;
}.

(** A member of a stored sub-document: absent, null, or a value. *)
Inductive Member (A : Type) :=
  | Absent
  | Null
  | Value (a : A).
Arguments Absent {A}.
Arguments Null {A}.
Arguments Value {A} a.

(** The preferences sub-document of a profile. *)
Record Preferences := {
  theme : Member jsstring;
  emailNotifications : Member bool;
}.

Record Env := {
  (** [jwt.verify] with the issuer's keys, audience and algorithm:
      the decoded payload, or [None] when verification fails. *)
  jwt_verify : jsstring -> option Claims;
  (** [new URL(url)] does not throw. *)
  url_parses : jsstring -> bool;
  (** Whether Mongoose leaves a member whose value is [undefined] out
      of an update (from version 6 on it always does; version 5 writes
      null unless the option of this name is set). *)
  omitUndefined : bool;
  (** Whether an upsert that inserts applies the schema defaults (the
      default from version 6 on). *)
  setDefaultsOnInsert : bool;
  (** [Number.prototype.toString], which Mongoose uses to cast a number
      to the String schema type. *)
  number_toString : Z -> jsstring;
  (** What Mongoose makes of a truthy preferences member that is not a
      plain object (a string, a number, [true], an array) when it casts
      the update: [None] when it throws, otherwise the sub-document as
      it is read back. *)
  cast_other_preferences : jsval -> option Preferences;
}.

(** ** The two models (server.js) *)

Record Task := {
  title : jsstring;
  completed : option bool;       (* Boolean; [None] is null *)
  completedAt : option Z;        (* Date; [None] is null *)
  userId : jsstring;
}.

(** The schema defaults of the preferences. *)
Definition default_preferences : Preferences :=
  {| theme := Value (lit "dark"); emailNotifications := Value true |}.

Record UserProfile := {
  profile_userId : jsstring;
  displayName : option jsstring;
  avatar : option jsstring;
  bio : option jsstring;
  preferences : option Preferences;
  createdAt : option Z;
  updatedAt : option Z;
}.

#[global] Instance jsval_eq_dec : EqDecision jsval.
Proof. solve_decision. Defined.
#[global] Instance Task_eq_dec : EqDecision Task.
Proof. solve_decision. Defined.
#[global] Instance Member_eq_dec {A} `{EqDecision A} : EqDecision (Member A).
Proof. solve_decision. Defined.
#[global] Instance Preferences_eq_dec : EqDecision Preferences.
Proof. solve_decision. Defined.
#[global] Instance UserProfile_eq_dec : EqDecision UserProfile.
Proof. solve_decision. Defined.

(** The stored state: the tasks collection, keyed by [_id], and the
    userprofiles collection. *)
Record DB := {
  tasks : gmap N Task;
  profiles : list UserProfile;
}.

Definition empty_db : DB := {| tasks := ∅; profiles := [] |}.

(** *** Mongoose: casting to the Boolean schema type

    [true], ['true'], [1], ['1'], ['yes'] become true; [false],
    ['false'], [0], ['0'], ['no'] become false; null and undefined are
    passed through; any other value is a CastError. *)
Inductive boolean_cast :=
  | CastError
  | CastUndefined
  | CastTo (b : option bool).

Definition convertToTrue : list jsval :=
  [JBool true; JStr (lit "true"); JNum 1; JStr (lit "1"); JStr (lit "yes")].

Definition convertToFalse : list jsval :=
  [JBool false; JStr (lit "false"); JNum 0; JStr (lit "0"); JStr (lit "no")].

Definition castBoolean (value : jsval) : boolean_cast :=
  if bool_decide (value ∈ convertToTrue) then CastTo (Some true)
  else if bool_decide (value ∈ convertToFalse) then CastTo (Some false)
  else match value with
       | JUndefined => CastUndefined
       | JNull => CastTo None
       | _ => CastError
       end.

(** *** Queries on tasks *)

(** [Task.findOne({ _id: id, userId: uid })] *)
Definition Task_findOne (id : N) (uid : jsstring) (ts : gmap N Task)
  : option Task :=
  match ts !! id with
  | Some t => if bool_decide (userId t = uid) then Some t else None
  | None => None
  end.

(** The update document the PUT handler builds. *)
Record TaskUpdate := {
  set_title : jsstring;
  set_completed : jsval;
  set_completedAt : option Z;
}.

(** [Task.findByIdAndUpdate(id, update, { new: true })]: [None] when
    the update cannot be cast to the schema, otherwise the document as
    updated and read back (null when no document has this id) and the
    collection. *)
Definition Task_findByIdAndUpdate (E : Env) (id : N) (update : TaskUpdate)
    (ts : gmap N Task) : option (option Task * gmap N Task) :=
  match castBoolean (set_completed update) with
  | CastError => None
  | c =>
      match ts !! id with
      | None => Some (None, ts)
      | Some t =>
          let t' :=
            {| title := toWellFormed (set_title update);
               completed :=
                 match c with
                 | CastTo b => b
                 | _ => if omitUndefined E then completed t else None
                 end;
               completedAt := set_completedAt update;
               userId := userId t |} in
          Some (Some t', <[id := t']> ts)
      end
  end.

(** [Task.findByIdAndDelete(id)] *)
Definition Task_findByIdAndDelete (id : N) (ts : gmap N Task) : gmap N Task :=
  delete id ts.

(** The order of [.sort({ completed: 1, completedAt: 1 })]: MongoDB
    compares null before any Boolean and before any date, false before
    true, and dates by their time. *)
Definition completed_rank (c : option bool) : nat :=
  match c with
  | None => 0
  | Some false => 1
  | Some true => 2
  end.

Definition date_le (a b : option Z) : Prop :=
  match a, b with
  | None, _ => True
  | Some _, None => False
  | Some x, Some y => (x ≤ y)%Z
  end.

Definition sort_le (a b : N * Task) : Prop :=
  (completed_rank (completed a.2) < completed_rank (completed b.2))%nat
  ∨ (completed_rank (completed a.2) = completed_rank (completed b.2)
     ∧ date_le (completedAt a.2) (completedAt b.2)).

#[global] Instance date_le_dec : RelDecision date_le.
Proof. intros [x|] [y|]; simpl; apply _. Defined.

#[global] Instance sort_le_dec : RelDecision sort_le.
Proof. intros a b. unfold sort_le. apply _. Defined.

(** [Task.find({ userId: uid })] *)
Definition Task_find (uid : jsstring) (ts : gmap N Task) : list (N * Task) :=
  filter (λ it, userId it.2 = uid) (map_to_list ts).

(** [Task.find({ userId: uid }).sort({ completed: 1, completedAt: 1 })].
    MongoDB leaves the order of documents with equal sort keys open;
    the model fixes one. *)
Definition Task_find_sorted (uid : jsstring) (ts : gmap N Task)
  : list (N * Task) :=
  merge_sort sort_le (Task_find uid ts).

(** *** Queries on profiles *)

Definition owned_by (uid : jsstring) (p : UserProfile) : bool :=
  bool_decide (profile_userId p = uid).

(** [UserProfile.findOne({ userId: uid })] *)
Definition Profile_findOne (uid : jsstring) (ps : list UserProfile)
  : option UserProfile :=
  List.find (owned_by uid) ps.

(** [new UserProfile({ userId, displayName, avatar })]: the schema
    defaults fill in preferences and the two dates. *)
Definition new_UserProfile (now : Z) (uid name avatar_url : jsstring)
  : UserProfile :=
  {| profile_userId := uid;
     displayName := Some name;
     avatar := Some avatar_url;
     bio := None;
     preferences := Some default_preferences;
     createdAt := Some now;
     updatedAt := Some now |}.

(** The [updateData] object of the PUT /profile handler: a member is
    present only when the handler has assigned it.  The preferences
    member is whatever the body carried. *)
Inductive PreferencesValue :=
  (** a plain object, given by its members [theme] and
      [emailNotifications] ([JUndefined] when it has none); the strict
      schema drops every other member *)
  | PrefsObject (theme_member emailNotifications_member : jsval)
  (** any other JSON value *)
  | PrefsOther (v : jsval).

Record UpdateData := {
  data_updatedAt : Z;
  data_displayName : option jsstring;
  data_avatar : option jsstring;
  data_bio : option jsstring;
  data_preferences : option PreferencesValue;
}.

(** *** Mongoose: casting the update to the schema *)

(** Casting to the String schema type: a string as it is, a number or a
    Boolean by its [toString], null and undefined passed through; an
    object or array is a CastError ([None]). *)
Definition castString (E : Env) (value : jsval) : option (Member jsstring) :=
  match value with
  | JUndefined => Some Absent
  | JNull => Some Null
  | JStr s => Some (Value s)
  | JBool b => Some (Value (if b then lit "true" else lit "false"))
  | JNum n => Some (Value (number_toString E n))
  | JObj => None
  end.

Definition castBooleanMember (value : jsval) : option (Member bool) :=
  match castBoolean value with
  | CastError => None
  | CastUndefined => Some Absent
  | CastTo None => Some Null
  | CastTo (Some b) => Some (Value b)
  end.

Definition stored_member (m : Member jsstring) : Member jsstring :=
  match m with
  | Value s => Value (toWellFormed s)
  | _ => m
  end.

(** The preferences sub-document the store receives for a preferences
    member, [None] when a member cannot be cast. *)
Definition castPreferences (E : Env) (value : PreferencesValue)
  : option Preferences :=
  match value with
  | PrefsObject t n =>
      match castString E t, castBooleanMember n with
      | Some t', Some n' =>
          Some {| theme := stored_member t'; emailNotifications := n' |}
      | _, _ => None
      end
  | PrefsOther v => cast_other_preferences E v
  end.

(** The update as the store applies it: text as the store holds it,
    preferences cast. *)
Record ProfileUpdate := {
  set_updatedAt : Z;
  set_displayName : option jsstring;
  set_avatar : option jsstring;
  set_bio : option jsstring;
  set_preferences : option Preferences;
}.

Definition cast_UpdateData (E : Env) (d : UpdateData) : option ProfileUpdate :=
  match data_preferences d with
  | None =>
      Some {| set_updatedAt := data_updatedAt d;
              set_displayName := toWellFormed <$> data_displayName d;
              set_avatar := toWellFormed <$> data_avatar d;
              set_bio := toWellFormed <$> data_bio d;
              set_preferences := None |}
  | Some value =>
      match castPreferences E value with
      | None => None
      | Some prefs =>
          Some {| set_updatedAt := data_updatedAt d;
                  set_displayName := toWellFormed <$> data_displayName d;
                  set_avatar := toWellFormed <$> data_avatar d;
                  set_bio := toWellFormed <$> data_bio d;
                  set_preferences := Some prefs |}
      end
  end.

Definition or_keep {A} (new old : option A) : option A :=
  match new with
  | Some x => Some x
  | None => old
  end.

Definition apply_ProfileUpdate (u : ProfileUpdate) (p : UserProfile)
  : UserProfile :=
  {| profile_userId := profile_userId p;
     displayName := or_keep (set_displayName u) (displayName p);
     avatar := or_keep (set_avatar u) (avatar p);
     bio := or_keep (set_bio u) (bio p);
     preferences := or_keep (set_preferences u) (preferences p);
     createdAt := createdAt p;
     updatedAt := Some (set_updatedAt u) |}.

(** The document an upsert inserts when no profile matches.  With
    [setDefaultsOnInsert] the defaults of the paths the update does not
    set are written with it. *)
Definition inserted_UserProfile (E : Env) (now : Z) (uid : jsstring)
    (u : ProfileUpdate) : UserProfile :=
  {| profile_userId := uid;
     displayName := set_displayName u;
     avatar := set_avatar u;
     bio := set_bio u;
     preferences :=
       or_keep (set_preferences u)
         (if setDefaultsOnInsert E then Some default_preferences else None);
     createdAt := if setDefaultsOnInsert E then Some now else None;
     updatedAt := Some (set_updatedAt u) |}.

(** The document Mongoose makes of a stored one when it reads it: a
    path with a schema default that the stored document does not have
    is given its default ([Date.now] is the time of the read). *)
Definition or_default {A} (m : Member A) (d : A) : Member A :=
  match m with
  | Absent => Value d
  | _ => m
  end.

Definition hydrate_preferences (prefs : option Preferences) : Preferences :=
  match prefs with
  | None => default_preferences
  | Some p =>
      {| theme := or_default (theme p) (lit "dark");
         emailNotifications := or_default (emailNotifications p) true |}
  end.

Definition hydrate (now : Z) (p : UserProfile) : UserProfile :=
  {| profile_userId := profile_userId p;
     displayName := displayName p;
     avatar := avatar p;
     bio := bio p;
     preferences := Some (hydrate_preferences (preferences p));
     createdAt := or_keep (createdAt p) (Some now);
     updatedAt := or_keep (updatedAt p) (Some now) |}.

Fixpoint update_first (uid : jsstring) (u : ProfileUpdate)
    (ps : list UserProfile) : option (UserProfile * list UserProfile) :=
  match ps with
  | [] => None
  | p :: ps' =>
      if owned_by uid p then
        Some (apply_ProfileUpdate u p, apply_ProfileUpdate u p :: ps')
      else
        match update_first uid u ps' with
        | Some (q, ps'') => Some (q, p :: ps'')
        | None => None
        end
  end.

(** The store's part of the upsert: the first profile of the user
    updated in place, or a new document appended. *)
Definition upsert (E : Env) (now : Z) (uid : jsstring) (u : ProfileUpdate)
    (ps : list UserProfile) : UserProfile * list UserProfile :=
  match update_first uid u ps with
  | Some r => r
  | None =>
      let p := inserted_UserProfile E now uid u in
      (p, ps ++ [p])
  end.

(** [UserProfile.findOneAndUpdate({ userId: uid }, updateData,
    { new: true, upsert: true })]: [None] when the update cannot be
    cast to the schema (nothing is sent to the store), otherwise the
    document as updated and read back, and the collection. *)
Definition Profile_findOneAndUpdate (E : Env) (now : Z) (uid : jsstring)
    (d : UpdateData) (ps : list UserProfile)
  : option (UserProfile * list UserProfile) :=
  match cast_UpdateData E d with
  | None => None
  | Some u =>
      let r := upsert E now uid u ps in
      Some (hydrate now r.1, r.2)
  end.

(** ** Responses *)

Inductive Body :=
  | JsonError (msg : jsstring)       (* { error: msg } *)
  | JsonMessage (msg : jsstring)     (* { message: msg } *)
  | JsonHealth (timestamp : Z)
  | JsonProfile (p : UserProfile)
  | JsonTask (id : N) (t : Task)
  | JsonTasks (l : list (N * Task))
  | JsonNull.

Record Response := {
  status : nat;
  body : Body;
}.

Definition ok (b : Body) : Response := {| status := 200; body := b |}.

Definition error (code : nat) (msg : string) : Response :=
  {| status := code; body := JsonError (lit msg) |}.

Definition internal_error : Response := error 500 "Internal server error".

(** ** The bearer-token check (server.js, jwtCheck) *)

Definition startsWith (s searchString : jsstring) : bool :=
  bool_decide (take (length searchString) s = searchString).

Fixpoint split (separator : N) (s : jsstring) : list jsstring :=
  match s with
  | [] => [[]]
  | c :: s' =>
      if c =? separator then [] :: split separator s'
      else
        match split separator s' with
        | piece :: pieces => (c :: piece) :: pieces
        | [] => [[c]]
        end
  end.

Definition space : N := 32.

(** The middleware either answers itself or hands the decoded claims
    to the route ([next()]). *)
Definition jwtCheck (E : Env) (authHeader : option jsstring)
  : Response + Claims :=
  match authHeader with
  | None => inl (error 401 "Access token is required")
  | Some h =>
      if negb (truthy (JStr h)) || negb (startsWith h (lit "Bearer ")) then
        inl (error 401 "Access token is required")
      else
        match split space h !! 1%nat with
        | None => inl (error 401 "Invalid token")
        | Some token =>
            match jwt_verify E token with
            | None => inl (error 401 "Invalid token")
            | Some decoded => inr decoded
            end
        end
  end.

(** ** Profile endpoints *)

(** [a || b] on an optional string claim: an absent or empty string is
    falsy. *)
Definition js_or (a : option jsstring) (b : jsstring) : jsstring :=
  match a with
  | Some s => if truthy (JStr s) then s else b
  | None => b
  end.

Definition with_profiles (db : DB) (ps : list UserProfile) : DB :=
  {| tasks := tasks db; profiles := ps |}.

Definition with_tasks (db : DB) (ts : gmap N Task) : DB :=
  {| tasks := ts; profiles := profiles db |}.

(** [app.get('/profile', jwtCheck, ...)] *)
Definition get_profile (now : Z) (user : Claims) (db : DB) : Response * DB :=
  match Profile_findOne (sub user) (profiles db) with
  | Some profile => (ok (JsonProfile (hydrate now profile)), db)
  | None =>
      let profile :=
        new_UserProfile now (sub user)
          (js_or (name user) (js_or (email user) (lit "User")))
          (generateShapesAvatar (sub user)) in
      (ok (JsonProfile profile), with_profiles db (profiles db ++ [profile]))
  end.

(** The body of PUT /profile: four members of arbitrary JSON, [None]
    for a body without a preferences member. *)
Record ProfileBody := {
  body_displayName : jsval;
  body_avatar : jsval;
  body_bio : jsval;
  body_preferences : option PreferencesValue;
}.

(** [if (preferences) updateData.preferences = preferences] *)
Definition preferences_if_truthy (prefs : option PreferencesValue)
  : option PreferencesValue :=
  match prefs with
  | Some (PrefsObject t n) => Some (PrefsObject t n)
  | Some (PrefsOther v) => if truthy v then Some (PrefsOther v) else None
  | None => None
  end.

(** [if (x !== undefined) updateData.x = sanitizeInput(x)] *)
Definition sanitized_if_present (v : jsval) : option jsstring :=
  if is_undefined v then None else Some (sanitizeInput v).

(** [app.put('/profile', jwtCheck, ...)] *)
Definition put_profile (E : Env) (now : Z) (user : Claims) (b : ProfileBody)
    (db : DB) : Response * DB :=
  if negb (is_undefined (body_displayName b))
     && negb (validateDisplayName (body_displayName b)) then
    (error 400 "Display name must be 1-50 characters long", db)
  else if negb (is_undefined (body_bio b))
          && negb (validateBio (body_bio b)) then
    (error 400 "Bio must be less than 500 characters", db)
  else if negb (is_undefined (body_avatar b))
          && negb (validateAvatarUrl (url_parses E) (body_avatar b)) then
    (error 400 "Invalid avatar URL or URL too long", db)
  else
    let updateData :=
      {| data_updatedAt := now;
         data_displayName := sanitized_if_present (body_displayName b);
         data_avatar := sanitized_if_present (body_avatar b);
         data_bio := sanitized_if_present (body_bio b);
         data_preferences := preferences_if_truthy (body_preferences b) |} in
    match Profile_findOneAndUpdate E now (sub user) updateData (profiles db) with
    | None => (internal_error, db)
    | Some (profile, ps) => (ok (JsonProfile profile), with_profiles db ps)
    end.

(** ** Task endpoints *)

(** [app.get('/tasks', jwtCheck, ...)] *)
Definition get_tasks (user : Claims) (db : DB) : Response * DB :=
  (ok (JsonTasks (Task_find_sorted (sub user) (tasks db))), db).

(** [task.save()]: the document as the store holds it. *)
Definition Task_saved (task : Task) : Task :=
  {| title := toWellFormed (title task);
     completed := completed task;
     completedAt := completedAt task;
     userId := userId task |}.

(** [app.post('/tasks', jwtCheck, ...)].  [new Task(...)] draws a new
    [_id]; the answer is the document the handler holds, not one read
    back. *)
Definition post_task (user : Claims) (body_title : jsval) (db : DB)
  : Response * DB :=
  let cleanTitle := sanitizeInput body_title in
  if negb (validateTitle (JStr cleanTitle)) then
    (error 400 "Invalid title input.", db)
  else
    let task :=
      {| title := cleanTitle;
         completed := Some false;
         completedAt := None;
         userId := sub user |} in
    let id := fresh (dom (tasks db)) in
    (ok (JsonTask id task),
     with_tasks db (<[id := Task_saved task]> (tasks db))).

(** The [:id] of a route: [Some n] when the text is an ObjectId,
    [None] when casting it to one throws. *)
Abbreviation IdParam := (option N).

(** [app.put('/tasks/:id', jwtCheck, ...)] *)
Definition put_task (E : Env) (now : Z) (user : Claims) (id : IdParam)
    (body_title body_completed : jsval) (db : DB) : Response * DB :=
  let cleanTitle := sanitizeInput body_title in
  if negb (validateTitle (JStr cleanTitle)) then
    (error 400 "Invalid title input.", db)
  else
    match id with
    | None => (internal_error, db)
    | Some id =>
        match Task_findOne id (sub user) (tasks db) with
        | None => (error 404 "Task not found", db)
        | Some _ =>
            let update :=
              {| set_title := cleanTitle;
                 set_completed := body_completed;
                 set_completedAt :=
                   if truthy body_completed then Some now else None |} in
            match Task_findByIdAndUpdate E id update (tasks db) with
            | None => (internal_error, db)
            | Some (Some updatedTask, ts) =>
                (ok (JsonTask id updatedTask), with_tasks db ts)
            | Some (None, ts) => (ok JsonNull, with_tasks db ts)
            end
        end
    end.

(** [app.delete('/tasks/:id', jwtCheck, ...)] *)
Definition delete_task (user : Claims) (id : IdParam) (db : DB)
  : Response * DB :=
  match id with
  | None => (internal_error, db)
  | Some id =>
      match Task_findOne id (sub user) (tasks db) with
      | None => (error 404 "Task not found", db)
      | Some _ =>
          (ok (JsonMessage (lit "Task deleted")),
           with_tasks db (Task_findByIdAndDelete id (tasks db)))
      end
  end.

(** ** The application: routes in the order they are registered *)

Inductive Route :=
  | GetHealth
  | GetProfile
  | PutProfile (b : ProfileBody)
  | GetTasks
  | PostTasks (body_title : jsval)
  | PutTask (id : IdParam) (body_title body_completed : jsval)
  | DeleteTask (id : IdParam)
  | NoRoute.

Record Request := {
  authorization : option jsstring;
  route : Route;
}.

(** [app.METHOD(path, jwtCheck, handler)]: the handler runs only when
    the middleware calls [next()]. *)
Definition behind_jwtCheck (E : Env) (req : Request) (db : DB)
    (handler : Claims -> Response * DB) : Response * DB :=
  match jwtCheck E (authorization req) with
  | inl refusal => (refusal, db)
  | inr user => handler user
  end.

Definition serve (E : Env) (now : Z) (req : Request) (db : DB)
  : Response * DB :=
  match route req with
  | GetHealth => (ok (JsonHealth now), db)
  | GetProfile =>
      behind_jwtCheck E req db (fun user => get_profile now user db)
  | PutProfile b =>
      behind_jwtCheck E req db (fun user => put_profile E now user b db)
  | GetTasks =>
      behind_jwtCheck E req db (fun user => get_tasks user db)
  | PostTasks t =>
      behind_jwtCheck E req db (fun user => post_task user t db)
  | PutTask id t c =>
      behind_jwtCheck E req db (fun user => put_task E now user id t c db)
  | DeleteTask id =>
      behind_jwtCheck E req db (fun user => delete_task user id db)
  | NoRoute => (error 404 "Route not found", db)
  end.

(** The routes the specification calls protected: all of them except
    the health probe (a path that matches no route is not a route). *)
Definition protected (r : Route) : bool :=
  match r with
  | GetHealth | NoRoute => false
  | _ => true
  end.

(** ** The client's two update actions (App.jsx) *)

(** [toggleComplete(task)]: the request it sends. *)
Definition toggleComplete (id : N) (t : Task) : Route :=
  PutTask (Some id) (JStr (title t))
    (JBool (negb (bool_decide (completed t = Some true)))).

(** [saveEdit(id)]: nothing is sent for a blank edit buffer, otherwise
    a body with the title alone. *)
Definition saveEdit (editTaskTitle : jsstring) (id : N) : option Route :=
  if bool_decide (trim editTaskTitle = []) then None
  else Some (PutTask (Some id) (JStr editTaskTitle) JUndefined).


(** ** Notions the properties are stated with *)

(** Text without angle brackets. *)
Definition angle_free (s : jsstring) : Prop :=
  Forall (λ c, isAngle c = false) s.

(** The request passes the bearer-token check as [user]. *)
Definition authenticated_as (E : Env) (req : Request) (user : Claims) : Prop :=
  jwtCheck E (authorization req) = inr user.

(** A member of the PUT /profile body that is present fails the check
    the handler applies to it. *)
Definition fails_validation (E : Env) (b : ProfileBody) : Prop :=
  (body_displayName b ≠ JUndefined
   ∧ validateDisplayName (body_displayName b) = false)
  ∨ (body_bio b ≠ JUndefined ∧ validateBio (body_bio b) = false)
  ∨ (body_avatar b ≠ JUndefined
     ∧ validateAvatarUrl (url_parses E) (body_avatar b) = false).

(** The number of stored profiles of a user. *)
Definition profile_count (uid : jsstring) (db : DB) : nat :=
  length (List.filter (owned_by uid) (profiles db)).

(** The invariant of the data model: a task is completed exactly when
    it carries a completion date. *)
Definition completion_consistent (t : Task) : Prop :=
  completed t = Some true ↔ completedAt t ≠ None.

(** Every stored task satisfies the invariant. *)
Definition all_consistent (db : DB) : Prop :=
  ∀ id T, tasks db !! id = Some T → completion_consistent T.

(** How PUT /profile treats a text member [v] of the body: when it is
    present the stored field becomes its sanitized text, as the store
    holds it, when it is absent the field keeps its previous value. *)
Definition text_member_stored (v : jsval) (old new : option jsstring) : Prop :=
  match v with
  | JUndefined => new = old
  | _ => new = Some (toWellFormed (sanitizeInput v))
  end.

(** The request carries a preferences member that the handler passes
    on (it is truthy) and the schema cannot cast. *)
Definition preferences_rejected (E : Env) (b : ProfileBody) : Prop :=
  ∃ value, preferences_if_truthy (body_preferences b) = Some value
           ∧ castPreferences E value = None.

(** What an accepted PUT /profile stores for the preferences: the cast
    member when one is passed on, otherwise what was there. *)
Definition preferences_stored (E : Env) (b : ProfileBody)
    (old new : option Preferences) : Prop :=
  match preferences_if_truthy (body_preferences b) with
  | Some value => new = castPreferences E value
  | None => new = old
  end.

(** The value of a field with a schema default before an upsert
    writes: the one of the profile found, or, when a document is
    inserted, the default where the upsert applies defaults. *)
Definition before_upsert {A} (E : Env) (old : option UserProfile)
    (field : UserProfile → option A) (default : A) : option A :=
  match old with
  | Some q => field q
  | None => if setDefaultsOnInsert E then Some default else None
  end.

(** Where an upsert leaves the profile [p] of a user: in the place of
    the first profile of the user, or, when there was none, at the end;
    the other documents stay as they are and where they are. *)
Definition placed (uid : jsstring) (p : UserProfile)
    (ps ps' : list UserProfile) : Prop :=
  match Profile_findOne uid ps with
  | Some q =>
      ∃ l1 l2, ps = l1 ++ q :: l2 ∧ Profile_findOne uid l1 = None
               ∧ ps' = l1 ++ p :: l2
  | None => ps' = ps ++ [p]
  end.

(** The completed member counts as true: the schema casts it to true. *)
Definition flag_is_true (c : jsval) : bool :=
  match castBoolean c with
  | CastTo (Some true) => true
  | _ => false
  end.

(** Two texts that agree, unit by unit, on what is white space and
    what is an angle bracket. *)
Definition same_kind (s s' : jsstring) : Prop :=
  Forall2 (λ a a', isWhiteSpace a' = isWhiteSpace a ∧ isAngle a' = isAngle a)
    s s'.

(** ** A small deployment for the examples *)

Definition alice : Claims :=
  {| sub := lit "auth0|alice"; name := Some (lit "Alice"); email := None |}.

Definition bob : Claims :=
  {| sub := lit "auth0|bob";
     name := None;
     email := Some (lit "bob@example.com") |}.

Definition example_env (omit : bool) : Env :=
  {| jwt_verify := λ token,
       if bool_decide (token = lit "alice.jwt") then Some alice
       else if bool_decide (token = lit "bob.jwt") then Some bob
       else None;
     url_parses := λ url, startsWith url (lit "https://");
     omitUndefined := omit;
     setDefaultsOnInsert := true;
     number_toString := λ n, lit (pretty n);
     cast_other_preferences := λ _, None |}.

Definition from_alice (r : Route) : Request :=
  {| authorization := Some (lit "Bearer alice.jwt"); route := r |}.

Definition from_bob (r : Route) : Request :=
  {| authorization := Some (lit "Bearer bob.jwt"); route := r |}.

Definition milk : Task :=
  {| title := lit "Buy milk";
     completed := Some false;
     completedAt := None;
     userId := sub alice |}.

Definition report : Task :=
  {| title := lit "Send report";
     completed := Some true;
     completedAt := Some 1700000000000%Z;
     userId := sub alice |}.

(** Alice owns task 0, still open, and task 1, completed. *)
Definition example_db : DB :=
  {| tasks := <[1 := report]> (<[0 := milk]> ∅); profiles := [] |}.

(** ** The outcome of an accepted update *)

(** The task an accepted update stores. *)
Definition updated_task (E : Env) (now : Z) (T : Task) (t c : jsval) : Task :=
  {| title := toWellFormed (sanitizeInput t);
     completed :=
       match castBoolean c with
       | CastTo b => b
       | _ => if omitUndefined E then completed T else None
       end;
     completedAt := if truthy c then Some now else None;
     userId := userId T |}.

(** ** Sequences of requests *)

(** The state after serving the requests in turn, each at its own
    clock value. *)
Definition run (E : Env) (reqs : list (Z * Request)) (db : DB) : DB :=
  foldl (λ d r, (serve E r.1 r.2 d).2) db reqs.

(** The completed member of an update request is a JSON Boolean. *)
Definition boolean_flag (r : Z * Request) : Prop :=
  match route r.2 with
  | PutTask _ _ c => ∃ b, c = JBool b
  | _ => True
  end.

(** ** The rest of the client

    The text inputs (SafetyComponents.jsx, UserProfile.jsx), the
    remaining actions of App.jsx and what it derives from the task list
    it has fetched. *)

Definition MAX_LENGTH : nat := 100.

(** SecureInput, [onChange]: the value handed to the owner of the
    input for the text typed,
    [e.target.value.replace(/[<>]/g, '').slice(0, MAX_LENGTH)]. *)
Definition SecureInput_onChange (value : jsstring) : jsstring :=
  take MAX_LENGTH (stripAngles value).

(** SecureInput, [warning]: [value.length >= MAX_LENGTH - 10]. *)
Definition SecureInput_warning (value : jsstring) : bool :=
  (MAX_LENGTH - 10 <=? length value)%nat.

(** [addTask()]: nothing is sent for a blank input. *)
Definition addTask (newTask : jsstring) : option Route :=
  if bool_decide (trim newTask = []) then None
  else Some (PostTasks (JStr newTask)).

(** [deleteTask(id)] *)
Definition deleteTask (id : N) : Route := DeleteTask (Some id).

(** The three values the filter buttons set. *)
Inductive Filter := ShowAll | ShowActive | ShowCompleted.

(** [task.completed] as a condition, on a task as the server sent it. *)
Definition is_completed (task : N * Task) : bool :=
  bool_decide (completed task.2 = Some true).

(** [filteredTasks] *)
Definition filteredTasks (shown : Filter) (fetched : list (N * Task))
  : list (N * Task) :=
  List.filter
    (λ task,
       match shown with
       | ShowActive => negb (is_completed task)
       | ShowCompleted => is_completed task
       | ShowAll => true
       end) fetched.

Definition completedCount (fetched : list (N * Task)) : nat :=
  length (List.filter is_completed fetched).

Definition activeCount (fetched : list (N * Task)) : nat :=
  length (List.filter (λ task, negb (is_completed task)) fetched).

(** The [user] object of the Auth0 hook, as far as the client reads it:
    [user?.name] and [user?.email]. *)
Record Auth0User := {
  user_name : option jsstring;
  user_email : option jsstring;
}.

(** [!x] on an optional string member. *)
Definition is_blank (x : option jsstring) : bool :=
  match x with
  | Some s => bool_decide (s = [])
  | None => true
  end.

(** [isNewUser(profile)] of App.jsx. *)
Definition isNewUser (user : Auth0User) (profile : UserProfile) : bool :=
  is_blank (bio profile)
  && (is_blank (displayName profile)
      || bool_decide (displayName profile = user_name user)
      || bool_decide (displayName profile = user_email user)
      || bool_decide (displayName profile = Some (lit "User"))).

(** The form of the profile dialog (UserProfile.jsx). *)
Record FormData := {
  form_displayName : jsstring;
  form_avatar : jsstring;
  form_bio : jsstring;
}.

(** [getMaxLength(field)] *)
Definition getMaxLength (field : jsstring) : nat :=
  if bool_decide (field = lit "displayName") then 50
  else if bool_decide (field = lit "bio") then 500
  else if bool_decide (field = lit "avatar") then 500
  else 100.

(** [handleInputChange(field, value)]: the form after the change.  A
    field name the form does not have adds a member nothing reads. *)
Definition handleInputChange (field value : jsstring) (prev : FormData)
  : FormData :=
  let sanitized := take (getMaxLength field) (stripAngles value) in
  if bool_decide (field = lit "displayName") then
    {| form_displayName := sanitized;
       form_avatar := form_avatar prev;
       form_bio := form_bio prev |}
  else if bool_decide (field = lit "avatar") then
    {| form_displayName := form_displayName prev;
       form_avatar := sanitized;
       form_bio := form_bio prev |}
  else if bool_decide (field = lit "bio") then
    {| form_displayName := form_displayName prev;
       form_avatar := form_avatar prev;
       form_bio := sanitized |}
  else prev.

(** [saveProfile()]: a blank display name is refused in the dialog;
    otherwise the display name and the bio are sent, the avatar is
    not. *)
Definition saveProfile (formData : FormData) : option Route :=
  if bool_decide (trim (form_displayName formData) = []) then None
  else
    Some (PutProfile
            {| body_displayName := JStr (form_displayName formData);
               body_avatar := JUndefined;
               body_bio := JStr (form_bio formData);
               body_preferences := None |}).

(** ** What a request may do to the store *)

(** The ways a request served for [user] changes the tasks
    collection. *)
Inductive task_write (E : Env) (now : Z) (user : Claims) (ts : gmap N Task)
  : gmap N Task → Prop :=
  | write_nothing : task_write E now user ts ts
  | write_created (t : jsval) :
      validateTitle (JStr (sanitizeInput t)) = true →
      task_write E now user ts
        (<[fresh (dom ts) :=
             {| title := toWellFormed (sanitizeInput t);
                completed := Some false;
                completedAt := None; userId := sub user |}]> ts)
  | write_updated (id : N) (T : Task) (t c : jsval) :
      ts !! id = Some T →
      userId T = sub user →
      validateTitle (JStr (sanitizeInput t)) = true →
      castBoolean c ≠ CastError →
      task_write E now user ts (<[id := updated_task E now T t c]> ts)
  | write_deleted (id : N) (T : Task) :
      ts !! id = Some T →
      userId T = sub user →
      task_write E now user ts (delete id ts).

(** A stored title is sanitized text of an admissible length. *)
Definition title_clean (t : jsstring) : Prop :=
  angle_free t ∧ trim t = t ∧ (1 ≤ length t ≤ 100)%nat.

Definition titles_clean (db : DB) : Prop :=
  ∀ id T, tasks db !! id = Some T → title_clean (title T).

(** Every stored title is text as the store holds it. *)
Definition titles_held (db : DB) : Prop :=
  ∀ id T, tasks db !! id = Some T → toWellFormed (title T) = title T.

(** No user has two profiles. *)
Definition one_profile_each (db : DB) : Prop :=
  ∀ uid, (profile_count uid db ≤ 1)%nat.

(** * Properties *)

(** ** The definitions on concrete inputs *)

Example sanitize_script :
  sanitizeInput (JStr (lit "<script>alert(1)</script>Ship it"))
  = lit "scriptalert(1)/scriptShip it".
Proof. reflexivity. Qed.

Example sanitize_blank : sanitizeInput (JStr (lit "  <>  ")) = [].
Proof. reflexivity. Qed.

Example sanitize_number : sanitizeInput (JNum 7) = [].
Proof. reflexivity. Qed.

Example avatar_of_auth0_user :
  generateShapesAvatar (lit "auth0|abc")
  = lit "https://api.dicebear.com/7.x/shapes/svg?seed=YXV0aDB8YW&backgroundColor=0f0f23&primaryColor=6366f1".
Proof. reflexivity. Qed.

Example split_header :
  split space (lit "Bearer abc.def") = [lit "Bearer"; lit "abc.def"].
Proof. reflexivity. Qed.


(** ** The sanitizer *)

Section Sanitizer.

Lemma trimStart_fixed (s : jsstring) : trimStart (trimStart s) = trimStart s.
Proof.
  induction s as [|c s IH]; simpl; [done|].
  destruct (isWhiteSpace c) eqn:Hc; [done|]. simpl. by rewrite Hc.
Qed.

Lemma trimStart_app (l m : jsstring) :
  trimStart (l ++ m) =
  match trimStart l with
  | [] => trimStart m
  | _ => trimStart l ++ m
  end.
Proof.
  induction l as [|c l IH]; simpl; [done|].
  destruct (isWhiteSpace c); [done|]. done.
Qed.

Lemma trimEnd_cons (c : N) (s : jsstring) :
  trimEnd (c :: s) =
  match trimEnd s with
  | [] => if isWhiteSpace c then [] else [c]
  | t => c :: t
  end.
Proof.
  unfold trimEnd. simpl. rewrite trimStart_app.
  destruct (trimStart (rev s)) as [|d u] eqn:Hs; simpl.
  - by destruct (isWhiteSpace c).
  - rewrite rev_app_distr. simpl.
    destruct (rev u ++ [d]) eqn:Hu; [|done].
    by destruct (rev u).
Qed.

Lemma trimEnd_fixed (s : jsstring) : trimEnd (trimEnd s) = trimEnd s.
Proof.
  unfold trimEnd. by rewrite rev_involutive, trimStart_fixed.
Qed.

Lemma trimStart_length (s : jsstring) : (length (trimStart s) ≤ length s)%nat.
Proof.
  induction s as [|c s IH]; simpl; [lia|].
  destruct (isWhiteSpace c); simpl; lia.
Qed.

Lemma trimStart_trimEnd (s : jsstring) :
  trimStart s = s → trimStart (trimEnd s) = trimEnd s.
Proof.
  destruct s as [|c s]; [done|]. simpl.
  destruct (isWhiteSpace c) eqn:Hc.
  - intros H. apply (f_equal length) in H.
    pose proof (trimStart_length s). simpl in H. lia.
  - intros _. rewrite trimEnd_cons, Hc.
    destruct (trimEnd s); simpl; by rewrite Hc.
Qed.

(** Trimming a trimmed string changes nothing. *)
Lemma trim_fixed (s : jsstring) : trim (trim s) = trim s.
Proof.
  unfold trim.
  rewrite (trimStart_trimEnd (trimStart s)) by apply trimStart_fixed.
  apply trimEnd_fixed.
Qed.

Lemma trim_length (s : jsstring) : (length (trim s) ≤ length s)%nat.
Proof.
  unfold trim, trimEnd. rewrite length_rev.
  etrans; [apply trimStart_length|]. rewrite length_rev.
  apply trimStart_length.
Qed.

Lemma stripAngles_length (s : jsstring) :
  (length (stripAngles s) ≤ length s)%nat.
Proof.
  induction s as [|c s IH]; simpl; [lia|].
  destruct (negb (isAngle c)); simpl; lia.
Qed.

Lemma stripAngles_angle_free (s : jsstring) : angle_free (stripAngles s).
Proof.
  apply List.Forall_forall. intros c Hc.
  apply List.filter_In in Hc as [_ Hc]. by destruct (isAngle c).
Qed.

Lemma trimStart_angle_free (s : jsstring) :
  angle_free s → angle_free (trimStart s).
Proof.
  induction 1 as [|c s Hc Hs IH]; simpl; [constructor|].
  destruct (isWhiteSpace c); [done|]. by constructor.
Qed.

Lemma rev_angle_free (s : jsstring) : angle_free s → angle_free (rev s).
Proof.
  unfold angle_free. rewrite !List.Forall_forall.
  intros H c Hc. apply H. by apply List.in_rev.
Qed.

Lemma trim_angle_free (s : jsstring) : angle_free s → angle_free (trim s).
Proof.
  intros H. unfold trim, trimEnd.
  by apply rev_angle_free, trimStart_angle_free, rev_angle_free,
    trimStart_angle_free.
Qed.

(** On text without angle brackets the filter returns its input. *)
Lemma xss_angle_free (s : jsstring) : angle_free s → xss s = s.
Proof.
  induction 1 as [|c s Hc Hs IH]; simpl; [done|].
  unfold isAngle in Hc. apply orb_false_iff in Hc as [-> ->].
  by rewrite IH.
Qed.

(** What [sanitizeInput] computes on a string: the angle brackets
    are removed and the rest is trimmed. *)
Lemma sanitizeInput_string (s : jsstring) :
  sanitizeInput (JStr s) = trim (stripAngles s).
Proof.
  simpl. apply xss_angle_free, trim_angle_free, stripAngles_angle_free.
Qed.

Lemma sanitizeInput_trimmed (v : jsval) :
  trim (sanitizeInput v) = sanitizeInput v.
Proof.
  destruct v; try done. rewrite sanitizeInput_string. apply trim_fixed.
Qed.

Lemma sanitizeInput_length (s : jsstring) :
  (length (sanitizeInput (JStr s)) ≤ length s)%nat.
Proof.
  rewrite sanitizeInput_string.
  etrans; [apply trim_length|apply stripAngles_length].
Qed.

(** The title check on a sanitized title is a check of its length. *)
Lemma validateTitle_sanitized (v : jsval) :
  validateTitle (JStr (sanitizeInput v)) = true
  ↔ (1 ≤ length (sanitizeInput v) ≤ 100)%nat.
Proof.
  unfold validateTitle. rewrite sanitizeInput_trimmed.
  rewrite andb_true_iff, Nat.ltb_lt, Nat.leb_le. lia.
Qed.

End Sanitizer.

(** ** Text as the store holds it *)

Lemma surrogates_disjoint (c : N) :
  isLowSurrogate c = true → isHighSurrogate c = false.
Proof.
  unfold isLowSurrogate, isHighSurrogate.
  intros [H1%N.leb_le H2%N.leb_le]%andb_true_iff.
  apply andb_false_iff. right. apply N.leb_gt. lia.
Qed.

Lemma surrogate_kind (c : N) :
  isHighSurrogate c || isLowSurrogate c = true →
  isWhiteSpace c = false ∧ isAngle c = false.
Proof.
  intros H.
  assert (55296 ≤ c ≤ 57343) as Hc.
  { unfold isHighSurrogate, isLowSurrogate in H.
    apply orb_true_iff in H
      as [[H1%N.leb_le H2%N.leb_le]%andb_true_iff
         |[H1%N.leb_le H2%N.leb_le]%andb_true_iff]; lia. }
  split.
  - unfold isWhiteSpace.
    repeat (apply orb_false_iff; split);
      try (apply N.eqb_neq; lia).
    apply andb_false_iff. right. apply N.leb_gt. lia.
  - unfold isAngle, lt_sign, gt_sign.
    apply orb_false_iff. split; apply N.eqb_neq; lia.
Qed.

Lemma well_formed_from_same_kind (b : bool) (s : jsstring) :
  same_kind s (well_formed_from b s).
Proof.
  unfold same_kind.
  revert b. induction s as [|c s IH]; intros b; [constructor|].
  cbn [well_formed_from]. constructor; [|apply IH].
  destruct (isHighSurrogate c) eqn:Hh.
  - destruct (starts_with_low s); [done|].
    destruct (surrogate_kind c) as [-> ->]; [by rewrite Hh|done].
  - destruct (isLowSurrogate c) eqn:Hl; [|done].
    destruct b; [done|].
    destruct (surrogate_kind c) as [-> ->]; [by rewrite Hl, orb_true_r|done].
Qed.

Lemma toWellFormed_same_kind (s : jsstring) : same_kind s (toWellFormed s).
Proof. apply well_formed_from_same_kind. Qed.

Lemma same_kind_length (s s' : jsstring) : same_kind s s' → length s' = length s.
Proof. intros H. symmetry. by eapply Forall2_length. Qed.

(** The store keeps the length of a text. *)
Lemma toWellFormed_length (s : jsstring) : length (toWellFormed s) = length s.
Proof. apply same_kind_length, toWellFormed_same_kind. Qed.

Lemma same_kind_angle_free (s s' : jsstring) :
  same_kind s s' → angle_free s → angle_free s'.
Proof.
  unfold same_kind, angle_free.
  induction 1 as [|a a' s s' [_ Ha] _ IH]; [done|].
  intros [Hc Hs]%Forall_cons. constructor; [congruence|by apply IH].
Qed.

Lemma same_kind_trimStart (s s' : jsstring) :
  same_kind s s' → same_kind (trimStart s) (trimStart s').
Proof.
  unfold same_kind.
  induction 1 as [|a a' s s' [Hw Ha] Hs IH]; [constructor|].
  cbn [trimStart]. rewrite Hw. destruct (isWhiteSpace a) eqn:Hk; [done|].
  constructor; [split; congruence|done].
Qed.

Lemma same_kind_rev (s s' : jsstring) : same_kind s s' → same_kind (rev s) (rev s').
Proof.
  unfold same_kind.
  induction 1 as [|a a' s s' Ha Hs IH]; [constructor|].
  cbn [rev]. apply Forall2_app; [done|]. constructor; [done|constructor].
Qed.

Lemma same_kind_trim (s s' : jsstring) :
  same_kind s s' → same_kind (trim s) (trim s').
Proof.
  intros H. unfold trim, trimEnd.
  by apply same_kind_rev, same_kind_trimStart, same_kind_rev,
    same_kind_trimStart.
Qed.

Lemma trimStart_full_length (s : jsstring) :
  length (trimStart s) = length s → trimStart s = s.
Proof.
  destruct s as [|c s]; [done|]. cbn [trimStart].
  destruct (isWhiteSpace c); [|done].
  intros H. pose proof (trimStart_length s). cbn in H. lia.
Qed.

Lemma trim_full_length (s : jsstring) : length (trim s) = length s → trim s = s.
Proof.
  unfold trim, trimEnd. rewrite length_rev. intros H.
  pose proof (trimStart_length (rev (trimStart s))) as H1.
  pose proof (trimStart_length s) as H2. rewrite length_rev in H1.
  assert (trimStart s = s) as Hs by (apply trimStart_full_length; lia).
  rewrite Hs in *.
  rewrite trimStart_full_length; [apply rev_involutive|].
  rewrite length_rev. lia.
Qed.

(** A trimmed text is held trimmed. *)
Lemma same_kind_trimmed (s s' : jsstring) :
  same_kind s s' → trim s = s → trim s' = s'.
Proof.
  intros H Ht. apply trim_full_length.
  rewrite (same_kind_length _ _ (same_kind_trim _ _ H)), Ht.
  symmetry. by apply same_kind_length.
Qed.

Lemma well_formed_from_no_low (s : jsstring) :
  starts_with_low s = false → well_formed_from true s = well_formed_from false s.
Proof.
  destruct s as [|c s]; [done|]. cbn. intros Hl. rewrite Hl.
  by destruct (isHighSurrogate c).
Qed.

Lemma well_formed_from_fixed (b : bool) (s : jsstring) :
  well_formed_from b (well_formed_from b s) = well_formed_from b s.
Proof.
  revert b. induction s as [|c s IH]; intros b; [done|].
  cbn [well_formed_from].
  destruct (isHighSurrogate c) eqn:Hh.
  - destruct (starts_with_low s) eqn:Hs.
    + assert (starts_with_low (well_formed_from true s) = true) as Hs'.
      { destruct s as [|d s]; [done|]. cbn in Hs. cbn.
        by rewrite (surrogates_disjoint d Hs), Hs. }
      cbn [well_formed_from]. by rewrite Hh, Hs', IH.
    + cbn [well_formed_from].
      change (isHighSurrogate replacement_character) with false.
      change (isLowSurrogate replacement_character) with false.
      cbn match. rewrite (well_formed_from_no_low s Hs). by rewrite IH.
  - destruct (isLowSurrogate c) eqn:Hl.
    + destruct b.
      * cbn [well_formed_from]. by rewrite Hh, Hl, IH.
      * cbn [well_formed_from].
        change (isHighSurrogate replacement_character) with false.
        change (isLowSurrogate replacement_character) with false.
        cbn match. by rewrite IH.
    + cbn [well_formed_from]. by rewrite Hh, Hl, IH.
Qed.

(** What the store holds is held unchanged when it is written again. *)
Lemma toWellFormed_fixed (s : jsstring) :
  toWellFormed (toWellFormed s) = toWellFormed s.
Proof. apply well_formed_from_fixed. Qed.

Example lone_surrogate_is_replaced :
  toWellFormed [97; 55357] = [97; 65533]
  ∧ toWellFormed [55357; 56832; 97] = [55357; 56832; 97]
  ∧ toWellFormed [56832; 55357] = [65533; 65533].
Proof. done. Qed.

(** ** The bearer-token check *)

Lemma startsWith_prefix (s p : jsstring) :
  startsWith s p = true ↔ ∃ rest, s = p ++ rest.
Proof.
  unfold startsWith. rewrite bool_decide_eq_true. split.
  - intros H. exists (drop (length p) s).
    rewrite <- (take_drop (length p) s) at 1. by rewrite H.
  - intros [rest ->]. by rewrite take_app_length.
Qed.

Lemma serve_authenticated (E : Env) (now : Z) (req : Request) (user : Claims)
    (db : DB) :
  authenticated_as E req user →
  serve E now req db =
  match route req with
  | GetHealth => (ok (JsonHealth now), db)
  | GetProfile => get_profile now user db
  | PutProfile b => put_profile E now user b db
  | GetTasks => get_tasks user db
  | PostTasks t => post_task user t db
  | PutTask id t c => put_task E now user id t c db
  | DeleteTask id => delete_task user id db
  | NoRoute => (error 404 "Route not found", db)
  end.
Proof.
  unfold authenticated_as, serve, behind_jwtCheck. intros ->.
  by destruct (route req).
Qed.

(** C9.  A request to a protected route (any route but GET /health)
    whose Authorization header is absent or does not begin with
    "Bearer " is answered 401 by the token check and the stored state
    is the one before the request: the handler of the route is not
    run. *)
Theorem missing_bearer_is_401 (E : Env) (now : Z) (req : Request) (db : DB) :
  protected (route req) = true →
  (authorization req = None
   ∨ ∃ h, authorization req = Some h ∧ ¬ ∃ token, h = lit "Bearer " ++ token) →
  serve E now req db = (error 401 "Access token is required", db).
Proof.
  intros Hp Hh.
  assert (jwtCheck E (authorization req)
          = inl (error 401 "Access token is required")) as Hj.
  { destruct Hh as [->|(h & -> & Hh)]; [done|].
    unfold jwtCheck.
    destruct (startsWith h (lit "Bearer ")) eqn:Hs.
    - apply startsWith_prefix in Hs. by destruct Hh.
    - by rewrite orb_true_r. }
  unfold serve, behind_jwtCheck. rewrite Hj.
  by destruct (route req).
Qed.

Lemma missing_bearer_is_401_witness :
  serve (example_env true) 5
    {| authorization := Some (lit "Basic YWxpY2U6c2VjcmV0");
       route := DeleteTask (Some 0) |} example_db
  = (error 401 "Access token is required", example_db).
Proof.
  apply missing_bearer_is_401; [reflexivity|].
  right. eexists. split; [reflexivity|].
  intros [token H]. vm_compute in H. discriminate H.
Defined.

(** ** Creating a task *)

Lemma post_task_invalid (user : Claims) (t : jsval) (db : DB) :
  validateTitle (JStr (sanitizeInput t)) = false →
  post_task user t db = (error 400 "Invalid title input.", db).
Proof. unfold post_task. by intros ->. Qed.

Lemma post_task_valid (user : Claims) (t : jsval) (db : DB) :
  validateTitle (JStr (sanitizeInput t)) = true →
  let task :=
    {| title := sanitizeInput t; completed := Some false;
       completedAt := None; userId := sub user |} in
  let id := fresh (dom (tasks db)) in
  tasks db !! id = None
  ∧ post_task user t db
    = (ok (JsonTask id task),
       with_tasks db (<[id := Task_saved task]> (tasks db))).
Proof.
  intros Hv. simpl. split.
  - apply not_elem_of_dom, is_fresh.
  - unfold post_task. by rewrite Hv.
Qed.

(** C2, as amended.  A title whose sanitized form (angle brackets
    removed, then trimmed) is longer than 100 code units is refused
    with 400 by POST /tasks, and no task is created: the stored state
    is unchanged. *)
Theorem post_task_long_title_is_400 (E : Env) (now : Z) (req : Request)
    (user : Claims) (s : jsstring) (db : DB) :
  authenticated_as E req user →
  route req = PostTasks (JStr s) →
  (100 < length (sanitizeInput (JStr s)))%nat →
  serve E now req db = (error 400 "Invalid title input.", db).
Proof.
  intros Ha Hr Hlen. rewrite (serve_authenticated _ _ _ _ _ Ha), Hr.
  apply post_task_invalid, not_true_iff_false.
  rewrite validateTitle_sanitized. lia.
Qed.

Lemma post_task_long_title_is_400_witness :
  serve (example_env true) 5
    (from_alice (PostTasks (JStr (replicate 101 97)))) example_db
  = (error 400 "Invalid title input.", example_db).
Proof.
  apply (post_task_long_title_is_400 _ _ _ alice (replicate 101 97)).
  - reflexivity.
  - reflexivity.
  - vm_compute. lia.
Defined.

(** C2, the property as written fails: a title of 101 code units, one
    hundred letters and a trailing blank, is accepted and stored. *)
Lemma post_task_padded_title_is_stored :
  let s := replicate 100 97 ++ [space] in
  let r := serve (example_env true) 5 (from_alice (PostTasks (JStr s)))
             example_db in
  (100 < length s)%nat
  ∧ status r.1 = 200%nat
  ∧ tasks example_db !! 2 = None
  ∧ tasks r.2 !! 2
    = Some {| title := replicate 100 97; completed := Some false;
              completedAt := None; userId := sub alice |}.
Proof. vm_compute. repeat split. lia. Qed.

(** ** Updating and deleting a task *)

Lemma Task_findOne_Some (id : N) (uid : jsstring) (ts : gmap N Task) (t : Task) :
  Task_findOne id uid ts = Some t ↔ ts !! id = Some t ∧ userId t = uid.
Proof.
  unfold Task_findOne. destruct (ts !! id) as [t'|].
  - case_bool_decide as Hu.
    + split; [by intros [= ->]|by intros [[= ->] _]].
    + split; [done|]. intros [[= ->] Hu']. by destruct Hu.
  - split; [done|]. by intros [? _].
Qed.

Lemma Task_findOne_not_owner (id : N) (uid : jsstring) (ts : gmap N Task)
    (t : Task) :
  ts !! id = Some t → userId t ≠ uid → Task_findOne id uid ts = None.
Proof.
  intros Ht Hne. unfold Task_findOne. rewrite Ht. by case_bool_decide.
Qed.

Lemma Task_findOne_missing (id : N) (uid : jsstring) (ts : gmap N Task) :
  ts !! id = None → Task_findOne id uid ts = None.
Proof. intros Ht. unfold Task_findOne. by rewrite Ht. Qed.

(** A request for a task the store does not give to the caller, be it
    absent or owned by someone else, is answered the same way. *)
Lemma put_task_not_found (E : Env) (now : Z) (user : Claims) (id : N)
    (t c : jsval) (db : DB) :
  Task_findOne id (sub user) (tasks db) = None →
  put_task E now user (Some id) t c db
  = (if validateTitle (JStr (sanitizeInput t))
     then error 404 "Task not found"
     else error 400 "Invalid title input.", db).
Proof.
  intros Hf. unfold put_task. rewrite Hf.
  by destruct (validateTitle (JStr (sanitizeInput t))).
Qed.

Lemma delete_task_not_found (user : Claims) (id : N) (db : DB) :
  Task_findOne id (sub user) (tasks db) = None →
  delete_task user (Some id) db = (error 404 "Task not found", db).
Proof. intros Hf. unfold delete_task. by rewrite Hf. Qed.

Lemma put_task_owned (E : Env) (now : Z) (user : Claims) (id : N)
    (t c : jsval) (db : DB) (T : Task) :
  tasks db !! id = Some T →
  userId T = sub user →
  validateTitle (JStr (sanitizeInput t)) = true →
  put_task E now user (Some id) t c db
  = match castBoolean c with
    | CastError => (internal_error, db)
    | _ =>
        (ok (JsonTask id (updated_task E now T t c)),
         with_tasks db (<[id := updated_task E now T t c]> (tasks db)))
    end.
Proof.
  intros HT Hu Hv. unfold put_task. rewrite Hv. simpl.
  rewrite (proj2 (Task_findOne_Some _ _ _ T)) by done.
  unfold Task_findByIdAndUpdate, updated_task. simpl. rewrite HT.
  by destruct (castBoolean c).
Qed.

(** C1, as amended.  For a task T of user A and an authenticated
    requester other than A: DELETE /tasks/:id answers 404; PUT
    /tasks/:id answers 404 when its title passes validation and 400
    when it does not (the title is checked before the task is looked
    up); either way the response is the one the same request gets for
    an id no task has, and the stored state, T included, is the one
    before the request. *)
Theorem foreign_task_is_not_found (E : Env) (now : Z) (auth : option jsstring)
    (user : Claims) (db : DB) (id : N) (T : Task) :
  jwtCheck E auth = inr user →
  tasks db !! id = Some T →
  userId T ≠ sub user →
  let delete_req i := {| authorization := auth; route := DeleteTask (Some i) |} in
  let put_req i t c := {| authorization := auth; route := PutTask (Some i) t c |} in
  serve E now (delete_req id) db = (error 404 "Task not found", db)
  ∧ (∀ t c,
       serve E now (put_req id t c) db
       = (if validateTitle (JStr (sanitizeInput t))
          then error 404 "Task not found"
          else error 400 "Invalid title input.", db))
  ∧ (∀ missing, tasks db !! missing = None →
       serve E now (delete_req missing) db = serve E now (delete_req id) db
       ∧ ∀ t c, serve E now (put_req missing t c) db
                = serve E now (put_req id t c) db).
Proof.
  intros Ha HT Hne. cbv zeta.
  pose proof (Task_findOne_not_owner _ _ _ _ HT Hne) as Hf.
  assert (∀ r, authenticated_as E {| authorization := auth; route := r |} user)
    as Hauth by done.
  split; [|split].
  - rewrite (serve_authenticated _ _ _ _ _ (Hauth _)). cbn [route].
    by apply delete_task_not_found.
  - intros t c. rewrite (serve_authenticated _ _ _ _ _ (Hauth _)). cbn [route].
    by apply put_task_not_found.
  - intros missing Hm.
    pose proof (Task_findOne_missing _ (sub user) _ Hm) as Hf'.
    split; [|intros t c];
      rewrite !(serve_authenticated _ _ _ _ _ (Hauth _)); cbn [route].
    + by rewrite !delete_task_not_found.
    + by rewrite !put_task_not_found.
Qed.

Lemma foreign_task_is_not_found_witness :
  serve (example_env true) 5 (from_bob (DeleteTask (Some 0))) example_db
  = (error 404 "Task not found", example_db).
Proof.
  refine (proj1 (foreign_task_is_not_found (example_env true) 5
                   (Some (lit "Bearer bob.jwt")) bob example_db 0 milk _ _ _)).
  - reflexivity.
  - reflexivity.
  - vm_compute. discriminate.
Defined.

(** C1, the property as written fails: Bob's PUT on Alice's task with a
    blank title is answered 400, not 404. *)
Lemma foreign_put_with_blank_title_is_400 :
  let req := from_bob (PutTask (Some 0) (JStr (lit "   ")) (JBool true)) in
  authenticated_as (example_env true) req bob
  ∧ tasks example_db !! 0 = Some milk
  ∧ userId milk ≠ sub bob
  ∧ serve (example_env true) 5 req example_db
    = (error 400 "Invalid title input.", example_db).
Proof.
  vm_compute. repeat split. discriminate.
Qed.

Lemma put_task_accepted (E : Env) (now : Z) (req : Request) (user : Claims)
    (db : DB) (id : N) (T : Task) (t c : jsval) :
  authenticated_as E req user →
  route req = PutTask (Some id) t c →
  tasks db !! id = Some T →
  userId T = sub user →
  validateTitle (JStr (sanitizeInput t)) = true →
  castBoolean c ≠ CastError →
  serve E now req db
  = (ok (JsonTask id (updated_task E now T t c)),
     with_tasks db (<[id := updated_task E now T t c]> (tasks db))).
Proof.
  intros Ha Hr HT Hu Hv Hc.
  rewrite (serve_authenticated _ _ _ _ _ Ha), Hr.
  rewrite (put_task_owned _ _ _ _ _ _ _ T) by done.
  by destruct (castBoolean c).
Qed.

(** Where the handler's reading of the completed member and the
    schema's differ: the three strings the schema casts to false are
    truthy.  On every other member the schema accepts the two agree. *)
Lemma truthy_flag_is_true (c : jsval) :
  castBoolean c ≠ CastError →
  c ∉ [JStr (lit "false"); JStr (lit "0"); JStr (lit "no")] →
  truthy c = flag_is_true c.
Proof.
  unfold flag_is_true, castBoolean. intros Hc Hn.
  rewrite !not_elem_of_cons in Hn. destruct Hn as (H1 & H2 & H3 & _).
  destruct (bool_decide (c ∈ convertToTrue)) eqn:Ht.
  - apply bool_decide_eq_true in Ht. unfold convertToTrue in Ht.
    repeat (apply elem_of_cons in Ht as [->|Ht]; [done|]).
    by apply elem_of_nil in Ht.
  - destruct (bool_decide (c ∈ convertToFalse)) eqn:Hf.
    + apply bool_decide_eq_true in Hf. unfold convertToFalse in Hf.
      repeat (apply elem_of_cons in Hf as [->|Hf]; [done|]).
      by apply elem_of_nil in Hf.
    + by destruct c.
Qed.

(** C3, as amended.  For an owned task and a PUT /tasks/:id request
    whose title passes validation and whose completed member the
    Boolean type of the schema accepts (absent, null, true, false, 1, 0,
    'true', '1', 'yes'; the strings 'false', '0' and 'no' are left
    aside), the stored task afterwards has the sanitized payload title
    in the form the store holds text (a surrogate code unit without its
    partner is held as U+FFFD), and its completedAt is the time of the
    request when the completed member is true and null otherwise.  In
    particular a request with completed=true followed by one with
    completed=false leaves completedAt null. *)
Theorem put_task_stores_title_and_completedAt (E : Env) (now : Z)
    (auth : option jsstring) (user : Claims) (db : DB) (id : N) (T : Task)
    (t c : jsval) :
  jwtCheck E auth = inr user →
  tasks db !! id = Some T →
  userId T = sub user →
  validateTitle (JStr (sanitizeInput t)) = true →
  castBoolean c ≠ CastError →
  c ∉ [JStr (lit "false"); JStr (lit "0"); JStr (lit "no")] →
  let put x y := {| authorization := auth; route := PutTask (Some id) x y |} in
  (∃ T', (serve E now (put t c) db).1 = ok (JsonTask id T')
         ∧ tasks (serve E now (put t c) db).2 !! id = Some T'
         ∧ title T' = toWellFormed (sanitizeInput t)
         ∧ completedAt T' = (if flag_is_true c then Some now else None))
  ∧ (∀ now' t',
       validateTitle (JStr (sanitizeInput t')) = true →
       let on := (serve E now (put t (JBool true)) db).2 in
       let off := (serve E now' (put t' (JBool false)) on).2 in
       (∃ T1, tasks on !! id = Some T1 ∧ completedAt T1 = Some now)
       ∧ (∃ T2, tasks off !! id = Some T2 ∧ completedAt T2 = None)).
Proof.
  intros Ha HT Hu Hv Hc Hn. cbv zeta.
  assert (∀ r, authenticated_as E {| authorization := auth; route := r |} user)
    as Hauth by done.
  split.
  - rewrite (put_task_accepted E now _ user db id T t c) by done.
    exists (updated_task E now T t c). cbn [fst snd with_tasks tasks].
    rewrite lookup_insert_eq. repeat split.
    cbn [completedAt updated_task]. by rewrite truthy_flag_is_true.
  - intros now' t' Hv'.
    rewrite (put_task_accepted E now _ user db id T t (JBool true)) by done.
    cbn [snd].
    set (T1 := updated_task E now T t (JBool true)).
    set (db1 := with_tasks db (<[id:=T1]> (tasks db))).
    assert (tasks db1 !! id = Some T1) as H1 by apply lookup_insert_eq.
    rewrite (put_task_accepted E now' _ user db1 id T1 t' (JBool false))
      by done.
    split.
    + by exists T1.
    + eexists. cbn [snd with_tasks tasks]. by rewrite lookup_insert_eq.
Qed.

Lemma put_task_stores_title_and_completedAt_witness :
  ∃ T', (serve (example_env true) 5
           (from_alice (PutTask (Some 0) (JStr (lit " Buy <b>oat</b> milk "))
                          (JBool true))) example_db).1
        = ok (JsonTask 0 T')
        ∧ title T' = lit "Buy boat/b milk"
        ∧ completedAt T' = Some 5%Z.
Proof.
  destruct (put_task_stores_title_and_completedAt (example_env true) 5
              (Some (lit "Bearer alice.jwt")) alice example_db 0 milk
              (JStr (lit " Buy <b>oat</b> milk ")) (JBool true))
    as [(T' & Hr & _ & Ht & Hc) _].
  - reflexivity.
  - reflexivity.
  - reflexivity.
  - reflexivity.
  - vm_compute. discriminate.
  - apply (bool_decide_unpack _). vm_compute. exact I.
  - exists T'. repeat split; [exact Hr|exact Ht|exact Hc].
Defined.

(** C3, the property as written fails.  With a valid title and a
    completed member the Boolean type rejects, the update throws, the
    answer is 500 and the stored title is not the payload's.  With a
    valid title that ends in a high surrogate and completed=true, the
    update is accepted and the stored title ends in U+FFFD: it is not
    the sanitized payload title. *)
Lemma put_task_uncastable_completed_is_500 :
  let t := JStr (lit "Buy oat milk") in
  let r := serve (example_env true) 5
             (from_alice (PutTask (Some 0) t (JStr (lit "abc")))) example_db in
  let u := JStr [97; 55357] in
  let r' := serve (example_env true) 5
              (from_alice (PutTask (Some 0) u (JBool true))) example_db in
  tasks example_db !! 0 = Some milk
  ∧ userId milk = sub alice
  ∧ validateTitle (JStr (sanitizeInput t)) = true
  ∧ r.1 = internal_error
  ∧ tasks r.2 !! 0 = Some milk
  ∧ title milk ≠ sanitizeInput t
  ∧ validateTitle (JStr (sanitizeInput u)) = true
  ∧ status r'.1 = 200%nat
  ∧ ∃ T', tasks r'.2 !! 0 = Some T'
          ∧ title T' = [97; 65533]
          ∧ title T' ≠ sanitizeInput u.
Proof.
  vm_compute. repeat split; [discriminate|].
  eexists. repeat split. discriminate.
Qed.

(** ** Completion flag and completion date *)

(** A new task is open and has no completion date. *)
Lemma post_task_consistent (user : Claims) (t : jsval) (db : DB) (id : N)
    (T : Task) :
  (post_task user t db).1 = ok (JsonTask id T) →
  completed T = Some false ∧ completedAt T = None ∧ completion_consistent T.
Proof.
  unfold post_task.
  destruct (validateTitle (JStr (sanitizeInput t))); [|done].
  intros [= _ <-]. by repeat split.
Qed.

(** An update whose completed member is a JSON Boolean stores a
    consistent task. *)
Lemma updated_task_boolean_consistent (E : Env) (now : Z) (T : Task)
    (t : jsval) (b : bool) :
  completion_consistent (updated_task E now T t (JBool b)).
Proof. destruct b; by split. Qed.

Lemma all_consistent_insert (db : DB) (id : N) (T : Task) :
  all_consistent db → completion_consistent T →
  all_consistent (with_tasks db (<[id := T]> (tasks db))).
Proof.
  intros Hdb HT i T'. cbn [with_tasks tasks]. rewrite lookup_insert.
  case_decide; [by intros [= <-]|apply Hdb].
Qed.

Lemma all_consistent_delete (db : DB) (id : N) :
  all_consistent db → all_consistent (with_tasks db (delete id (tasks db))).
Proof.
  intros Hdb i T'. cbn [with_tasks tasks].
  intros [_ HT]%lookup_delete_Some. by apply (Hdb i).
Qed.

Lemma serve_boolean_flag_consistent (E : Env) (r : Z * Request) (db : DB) :
  boolean_flag r → all_consistent db → all_consistent (serve E r.1 r.2 db).2.
Proof.
  destruct r as [now [auth rt]]. unfold boolean_flag, serve, behind_jwtCheck.
  cbn [fst snd route authorization]. intros Hb Hdb.
  destruct rt as [| |b| |t|id t c|id|]; try done;
    destruct (jwtCheck E auth) as [?|user]; try done.
  - unfold get_profile. by destruct (Profile_findOne _ _).
  - unfold put_profile.
    repeat (match goal with |- context [if ?x then _ else _] =>
              destruct x; [done|] end).
    by destruct (Profile_findOneAndUpdate _ _ _ _ _) as [[? ?]|].
  - unfold post_task.
    destruct (validateTitle _); [|done].
    by apply all_consistent_insert.
  - destruct Hb as [b ->]. unfold put_task.
    destruct (validateTitle _); [|done]. cbn [negb].
    destruct id as [id|]; [|done].
    destruct (Task_findOne id (sub user) (tasks db)) as [T0|] eqn:Hf; [|done].
    apply Task_findOne_Some in Hf as [HT _].
    unfold Task_findByIdAndUpdate. cbn [set_completed]. rewrite HT.
    destruct b; by apply all_consistent_insert.
  - unfold delete_task. destruct id as [id|]; [|done].
    destruct (Task_findOne _ _ _); [|done].
    by apply all_consistent_delete.
Qed.

Lemma empty_db_consistent : all_consistent empty_db.
Proof. intros i T. cbn. by rewrite lookup_empty. Qed.

(** X12.  The part of the invariant that holds: starting from the
    empty store, while every update request carries a JSON Boolean as
    its completed member, every stored task is completed exactly when it
    has a completion date. *)
Lemma boolean_updates_stay_consistent (E : Env) (reqs : list (Z * Request)) :
  Forall boolean_flag reqs → all_consistent (run E reqs empty_db).
Proof.
  unfold run. generalize empty_db, empty_db_consistent.
  intros db Hdb Hall. revert db Hdb.
  induction Hall as [|r reqs Hr _ IH]; intros db Hdb; [done|].
  cbn [foldl]. by apply IH, serve_boolean_flag_consistent.
Qed.

(** The client's toggle always sends a Boolean, so the requests it
    makes keep the invariant; its edit action sends no completed member
    at all. *)
Lemma toggleComplete_boolean_flag (now : Z) (auth : option jsstring) (id : N)
    (T : Task) :
  boolean_flag (now, {| authorization := auth; route := toggleComplete id T |}).
Proof. unfold boolean_flag. cbn. by eexists. Qed.

Example create_then_list :
  let create := from_alice (PostTasks (JStr (lit "Buy milk"))) in
  (serve (example_env true) 2 (from_alice GetTasks)
     (run (example_env true) [(1%Z, create)] empty_db)).1
  = ok (JsonTasks [(0, milk)]).
Proof. vm_compute. reflexivity. Qed.

(** C4, at the failing input.  From the empty store, POST /tasks
    creates "Buy milk" (open, no date); a PUT /tasks/:id on it whose
    completed member is the string 'false' is accepted: the handler
    takes the non-empty string as truthy and sets completedAt, the
    schema casts it to false.  The stored task is open and has a
    completion date, whichever way undefined update members are
    treated. *)
Theorem string_false_breaks_completion_invariant (omit : bool) :
  let create := from_alice (PostTasks (JStr (lit "Buy milk"))) in
  let update :=
    from_alice (PutTask (Some 0) (JStr (lit "Buy milk")) (JStr (lit "false"))) in
  let db1 := run (example_env omit) [(1%Z, create)] empty_db in
  let db2 := run (example_env omit) [(1%Z, create); (2%Z, update)] empty_db in
  tasks db1 !! 0 = Some milk
  ∧ completion_consistent milk
  ∧ (serve (example_env omit) 2 update db1).1.(status) = 200%nat
  ∧ ∃ T, tasks db2 !! 0 = Some T
         ∧ completed T = Some false
         ∧ completedAt T = Some 2%Z
         ∧ ¬ completion_consistent T.
Proof.
  destruct omit; vm_compute; (split; [done|]); (split; [by split|]);
    (split; [done|]); eexists; (split; [reflexivity|]); cbn;
    (split; [done|]); (split; [done|]); by intros [_ H]; discriminate H.
Qed.

(** ** Editing the title of a completed task *)

(** What the request of the client's save-edit action stores on an
    owned, completed task: the title in the form the store holds text
    and completedAt=null; the completed flag is null when the store
    writes an undefined update member as null, and stays true when it
    leaves undefined members out of the update. *)
Lemma save_edit_outcome (E : Env) (now : Z)
    (auth : option jsstring) (user : Claims) (db : DB) (id : N) (T : Task)
    (text : jsstring) (r : Route) :
  jwtCheck E auth = inr user →
  tasks db !! id = Some T →
  userId T = sub user →
  completed T = Some true →
  saveEdit text id = Some r →
  validateTitle (JStr (sanitizeInput (JStr text))) = true →
  ∃ T', tasks (serve E now {| authorization := auth; route := r |} db).2 !! id
        = Some T'
        ∧ title T' = toWellFormed (sanitizeInput (JStr text))
        ∧ completedAt T' = None
        ∧ completed T' = (if omitUndefined E then Some true else None).
Proof.
  intros Ha HT Hu Hc Hs Hv. unfold saveEdit in Hs.
  case_bool_decide; [done|]. injection Hs as <-.
  rewrite (put_task_accepted E now _ user db id T (JStr text) JUndefined)
    by done.
  exists (updated_task E now T (JStr text) JUndefined).
  cbn [snd with_tasks tasks]. rewrite lookup_insert_eq.
  repeat split. cbn. by rewrite Hc.
Qed.

(** C10, at the failing input.  Alice's task 1 is completed and has a
    completion date.  She edits its title in the client: saveEdit sends
    PUT /tasks/1 with the title alone.  Where undefined update members
    are left out of the update, the request is accepted and the stored
    task afterwards still has completed=true, now with completedAt=null:
    the completed flag is not reset, and the task is completed without a
    completion date. *)
Theorem save_edit_leaves_completed_true :
  let text := lit "Send the report" in
  let r := PutTask (Some 1) (JStr text) JUndefined in
  let answer := serve (example_env true) 5 (from_alice r) example_db in
  saveEdit text 1 = Some r
  ∧ tasks example_db !! 1 = Some report
  ∧ userId report = sub alice
  ∧ completed report = Some true
  ∧ validateTitle (JStr (sanitizeInput (JStr text))) = true
  ∧ status answer.1 = 200%nat
  ∧ ∃ T', tasks answer.2 !! 1 = Some T'
          ∧ title T' = text
          ∧ completed T' = Some true
          ∧ completedAt T' = None
          ∧ ¬ completion_consistent T'.
Proof.
  vm_compute. repeat split. eexists. repeat split.
  intros [H _]. by destruct H.
Qed.

(** ** Listing tasks *)

#[local] Instance date_le_trans : Transitive date_le.
Proof. intros [x|] [y|] [z|]; simpl; try done. lia. Qed.

#[local] Instance date_le_total : Total date_le.
Proof. intros [x|] [y|]; simpl; try tauto. lia. Qed.

#[local] Instance sort_le_trans : Transitive sort_le.
Proof.
  intros a b c [Hab|[Hab Hab']] [Hbc|[Hbc Hbc']]; unfold sort_le.
  - left. lia.
  - left. lia.
  - left. lia.
  - right. split; [lia|]. by etrans.
Qed.

#[local] Instance sort_le_total : Total sort_le.
Proof.
  intros a b. unfold sort_le.
  destruct (date_le_total (completedAt a.2) (completedAt b.2));
    destruct (lt_eq_lt_dec (completed_rank (completed a.2))
                (completed_rank (completed b.2))) as [[?|?]|?];
    auto with lia.
Qed.

Lemma StronglySorted_lookup_lt {A} (R : relation A) (l : list A) (i j : nat)
    (a b : A) :
  StronglySorted R l → l !! i = Some a → l !! j = Some b → (i < j)%nat → R a b.
Proof.
  intros Hl. revert i j. induction Hl as [|x l Hl IH Hx]; intros i j Hi Hj Hij.
  - by rewrite lookup_nil in Hi.
  - destruct j as [|j]; [lia|]. destruct i as [|i].
    + injection Hi as <-. cbn in Hj.
      rewrite List.Forall_forall in Hx. apply Hx.
      apply list_elem_of_In. by eapply list_elem_of_lookup_2.
    + cbn in Hi, Hj. eapply IH; eauto with lia.
Qed.

Lemma Task_find_sorted_spec (uid : jsstring) (ts : gmap N Task) :
  StronglySorted sort_le (Task_find_sorted uid ts)
  ∧ NoDup (Task_find_sorted uid ts)
  ∧ ∀ id t, (id, t) ∈ Task_find_sorted uid ts ↔ ts !! id = Some t ∧ userId t = uid.
Proof.
  unfold Task_find_sorted. split; [|split].
  - apply (StronglySorted_merge_sort _).
  - rewrite merge_sort_Permutation. unfold Task_find.
    apply NoDup_filter, NoDup_map_to_list.
  - intros id t. rewrite merge_sort_Permutation. unfold Task_find.
    rewrite list_elem_of_filter, elem_of_map_to_list. cbn. tauto.
Qed.

(** C5.  GET /tasks answers with all the tasks of the caller, each
    once and no other; in the list every task with completed=false
    comes before every task with completed=true, and the completed
    tasks are in ascending order of completedAt (a null date, as in the
    store's comparison, before any date). *)
Theorem get_tasks_lists_open_then_completed (E : Env) (now : Z)
    (req : Request) (user : Claims) (db : DB) :
  authenticated_as E req user →
  route req = GetTasks →
  ∃ l, serve E now req db = (ok (JsonTasks l), db)
       ∧ NoDup l
       ∧ (∀ id t, (id, t) ∈ l ↔ tasks db !! id = Some t ∧ userId t = sub user)
       ∧ (∀ i j a b, l !! i = Some a → l !! j = Some b →
            completed a.2 = Some false → completed b.2 = Some true →
            (i < j)%nat)
       ∧ (∀ i j a b, l !! i = Some a → l !! j = Some b → (i < j)%nat →
            completed a.2 = Some true → completed b.2 = Some true →
            date_le (completedAt a.2) (completedAt b.2)).
Proof.
  intros Ha Hr. exists (Task_find_sorted (sub user) (tasks db)).
  destruct (Task_find_sorted_spec (sub user) (tasks db)) as (Hs & Hn & Hm).
  split; [|split; [done|split; [done|split]]].
  - by rewrite (serve_authenticated _ _ _ _ _ Ha), Hr.
  - intros i j a b Hi Hj Hca Hcb.
    destruct (lt_eq_lt_dec i j) as [[?| ->]|Hlt]; [done| |].
    + rewrite Hi in Hj. injection Hj as ->. congruence.
    + pose proof (StronglySorted_lookup_lt _ _ _ _ _ _ Hs Hj Hi Hlt) as Hle.
      unfold sort_le in Hle. rewrite Hca, Hcb in Hle. cbn in Hle. lia.
  - intros i j a b Hi Hj Hlt Hca Hcb.
    pose proof (StronglySorted_lookup_lt _ _ _ _ _ _ Hs Hi Hj Hlt) as Hle.
    unfold sort_le in Hle. rewrite Hca, Hcb in Hle. cbn in Hle.
    destruct Hle as [?|[_ ?]]; [lia|done].
Qed.

Lemma get_tasks_lists_open_then_completed_witness :
  ∃ l, serve (example_env true) 5 (from_alice GetTasks) example_db
       = (ok (JsonTasks l), example_db)
       ∧ NoDup l.
Proof.
  destruct (get_tasks_lists_open_then_completed (example_env true) 5
              (from_alice GetTasks) alice example_db)
    as (l & Hl & Hn & _).
  - reflexivity.
  - reflexivity.
  - exists l. split; [exact Hl|exact Hn].
Defined.

Example get_tasks_of_alice :
  (serve (example_env true) 5 (from_alice GetTasks) example_db).1
  = ok (JsonTasks [(0, milk); (1, report)]).
Proof. vm_compute. reflexivity. Qed.

(** ** Profiles *)

Lemma Profile_findOne_owner (uid : jsstring) (ps : list UserProfile)
    (p : UserProfile) :
  Profile_findOne uid ps = Some p → profile_userId p = uid.
Proof.
  intros H. apply List.find_some in H as [_ H].
  by apply bool_decide_eq_true in H.
Qed.

Lemma Profile_findOne_app_new (uid uid' : jsstring) (ps : list UserProfile)
    (p : UserProfile) :
  profile_userId p = uid →
  Profile_findOne uid ps = None →
  Profile_findOne uid' (ps ++ [p])
  = if bool_decide (uid' = uid) then Some p else Profile_findOne uid' ps.
Proof.
  intros Hp Hn. unfold Profile_findOne in *.
  induction ps as [|q ps IH]; cbn in *.
  - unfold owned_by. rewrite Hp.
    rewrite (bool_decide_ext (uid = uid') (uid' = uid)) by done.
    by case_bool_decide.
  - destruct (owned_by uid q) eqn:Hq; [done|].
    destruct (owned_by uid' q) eqn:Hq'; [|by apply IH].
    case_bool_decide as Hu; [|done]. subst. congruence.
Qed.

Lemma profile_count_none (uid : jsstring) (db : DB) :
  Profile_findOne uid (profiles db) = None → profile_count uid db = 0%nat.
Proof.
  unfold Profile_findOne, profile_count.
  induction (profiles db) as [|q ps IH]; cbn; [done|].
  by destruct (owned_by uid q).
Qed.

Lemma update_first_found (uid : jsstring) (u : ProfileUpdate)
    (ps : list UserProfile) (p : UserProfile) :
  Profile_findOne uid ps = Some p →
  ∃ ps', update_first uid u ps = Some (apply_ProfileUpdate u p, ps')
         ∧ Profile_findOne uid ps' = Some (apply_ProfileUpdate u p)
         ∧ ∀ uid', uid' ≠ uid → Profile_findOne uid' ps' = Profile_findOne uid' ps.
Proof.
  unfold Profile_findOne. induction ps as [|q ps IH]; cbn; [done|].
  destruct (owned_by uid q) eqn:Hq.
  - intros [= ->]. eexists. split; [done|]. cbn.
    assert (owned_by uid (apply_ProfileUpdate u p) = true) as -> by done.
    split; [done|]. intros uid' Hne.
    apply bool_decide_eq_true in Hq.
    assert (∀ x, profile_userId x = uid → owned_by uid' x = false) as Hf.
    { intros x Hx. apply bool_decide_eq_false. congruence. }
    by rewrite !Hf.
  - intros Hp. destruct (IH Hp) as (ps' & -> & Hf & Ho).
    eexists. split; [done|]. cbn. rewrite Hq. split; [done|].
    intros uid' Hne. destruct (owned_by uid' q); [done|]. by apply Ho.
Qed.

Lemma update_first_none (uid : jsstring) (u : ProfileUpdate)
    (ps : list UserProfile) :
  Profile_findOne uid ps = None → update_first uid u ps = None.
Proof.
  unfold Profile_findOne. induction ps as [|q ps IH]; cbn; [done|].
  destruct (owned_by uid q); [done|]. intros H. by rewrite IH.
Qed.

Lemma update_first_place (uid : jsstring) (u : ProfileUpdate)
    (ps : list UserProfile) (p : UserProfile) :
  Profile_findOne uid ps = Some p →
  ∃ l1 l2, ps = l1 ++ p :: l2 ∧ Profile_findOne uid l1 = None
           ∧ update_first uid u ps
             = Some (apply_ProfileUpdate u p, l1 ++ apply_ProfileUpdate u p :: l2).
Proof.
  unfold Profile_findOne. induction ps as [|q ps IH]; cbn; [done|].
  destruct (owned_by uid q) eqn:Hq.
  - intros [= ->]. by exists [], ps.
  - intros Hp. destruct (IH Hp) as (l1 & l2 & -> & Hn & ->).
    exists (q :: l1), l2. cbn. by rewrite Hq.
Qed.

(** The store's part of the upsert of PUT /profile: what it returns is
    afterwards the stored profile of the user, it is the previous
    profile with the update applied or the inserted document, it is
    where the previous one was, and no profile of another user is
    touched. *)
Lemma upsert_spec (E : Env) (now : Z) (uid : jsstring)
    (u : ProfileUpdate) (ps : list UserProfile) :
  let r := upsert E now uid u ps in
  Profile_findOne uid r.2 = Some r.1
  ∧ r.1 = match Profile_findOne uid ps with
          | Some p => apply_ProfileUpdate u p
          | None => inserted_UserProfile E now uid u
          end
  ∧ placed uid r.1 ps r.2
  ∧ ∀ uid', uid' ≠ uid → Profile_findOne uid' r.2 = Profile_findOne uid' ps.
Proof.
  cbv zeta. unfold upsert, placed.
  destruct (Profile_findOne uid ps) as [p|] eqn:Hp.
  - destruct (update_first_found uid u ps p Hp) as (ps' & Hup & Hf & Ho).
    destruct (update_first_place uid u ps p Hp) as (l1 & l2 & Hps & Hl & Hup').
    rewrite Hup in Hup'. injection Hup' as ->. rewrite Hup. cbn [fst snd].
    split; [done|]. split; [done|]. split; [by exists l1, l2|done].
  - rewrite (update_first_none uid u ps Hp). cbn [fst snd].
    split; [|split; [done|split; [done|]]].
    + rewrite (Profile_findOne_app_new uid uid) by done.
      by rewrite bool_decide_eq_true_2.
    + intros uid' Hne. rewrite (Profile_findOne_app_new uid uid') by done.
      by rewrite bool_decide_eq_false_2.
Qed.

(** Casting the update fails exactly on a preferences member the schema
    cannot cast; otherwise the text members are put in the form the
    store holds and the preferences are cast. *)
Lemma cast_UpdateData_spec (E : Env) (d : UpdateData) :
  match cast_UpdateData E d with
  | None =>
      ∃ value, data_preferences d = Some value ∧ castPreferences E value = None
  | Some u =>
      u = {| set_updatedAt := data_updatedAt d;
             set_displayName := toWellFormed <$> data_displayName d;
             set_avatar := toWellFormed <$> data_avatar d;
             set_bio := toWellFormed <$> data_bio d;
             set_preferences := data_preferences d ≫= castPreferences E |}
      ∧ ∀ value, data_preferences d = Some value →
                 castPreferences E value ≠ None
  end.
Proof.
  unfold cast_UpdateData. destruct (data_preferences d) as [value|]; [|done].
  destruct (castPreferences E value) as [prefs|] eqn:Hc; [|by exists value].
  split; [by cbn; rewrite Hc|]. intros ? [= <-]. by rewrite Hc.
Qed.

Lemma present_and_invalid (f : jsval → bool) (v : jsval) :
  negb (is_undefined v) && negb (f v) = true ↔ v ≠ JUndefined ∧ f v = false.
Proof.
  rewrite andb_true_iff, !negb_true_iff.
  destruct v; cbn; split; intros [? ?]; split; congruence.
Qed.

(** PUT /profile once the three checks have passed. *)
Lemma put_profile_checked (E : Env) (now : Z) (user : Claims)
    (b : ProfileBody) (db : DB) :
  ¬ fails_validation E b →
  put_profile E now user b db
  = match
      Profile_findOneAndUpdate E now (sub user)
        {| data_updatedAt := now;
           data_displayName := sanitized_if_present (body_displayName b);
           data_avatar := sanitized_if_present (body_avatar b);
           data_bio := sanitized_if_present (body_bio b);
           data_preferences := preferences_if_truthy (body_preferences b) |}
        (profiles db)
    with
    | None => (internal_error, db)
    | Some (profile, ps) => (ok (JsonProfile profile), with_profiles db ps)
    end.
Proof.
  intros Hok. unfold put_profile.
  destruct (negb (is_undefined (body_displayName b))
            && negb (validateDisplayName (body_displayName b))) eqn:Hn.
  { apply present_and_invalid in Hn. destruct Hok. by left. }
  destruct (negb (is_undefined (body_bio b))
            && negb (validateBio (body_bio b))) eqn:Hb.
  { apply present_and_invalid in Hb. destruct Hok. right. by left. }
  destruct (negb (is_undefined (body_avatar b))
            && negb (validateAvatarUrl (url_parses E) (body_avatar b))) eqn:Hv.
  { apply (present_and_invalid (validateAvatarUrl (url_parses E))) in Hv.
    destruct Hok. right. by right. }
  done.
Qed.

Lemma put_profile_refused (E : Env) (now : Z) (user : Claims)
    (b : ProfileBody) (db : DB) :
  fails_validation E b →
  status (put_profile E now user b db).1 = 400%nat
  ∧ (put_profile E now user b db).2 = db.
Proof.
  intros Hf. unfold put_profile.
  destruct (negb (is_undefined (body_displayName b))
            && negb (validateDisplayName (body_displayName b))) eqn:Hn; [done|].
  destruct (negb (is_undefined (body_bio b))
            && negb (validateBio (body_bio b))) eqn:Hb; [done|].
  destruct (negb (is_undefined (body_avatar b))
            && negb (validateAvatarUrl (url_parses E) (body_avatar b))) eqn:Hv;
    [done|].
  destruct Hf as [H|[H|H]].
  - apply present_and_invalid in H. congruence.
  - apply present_and_invalid in H. congruence.
  - apply (present_and_invalid (validateAvatarUrl (url_parses E))) in H.
    congruence.
Qed.

(** PUT /profile with a preferences member the schema cannot cast: the
    update throws before anything is sent to the store. *)
Lemma put_profile_rejected (E : Env) (now : Z) (user : Claims)
    (b : ProfileBody) (db : DB) :
  ¬ fails_validation E b → preferences_rejected E b →
  put_profile E now user b db = (internal_error, db).
Proof.
  intros Hok (value & Hv & Hc). rewrite put_profile_checked by done.
  unfold Profile_findOneAndUpdate, cast_UpdateData.
  cbn [data_preferences]. by rewrite Hv, Hc.
Qed.

(** An accepted PUT /profile: the profile it stores, where it stores
    it, and what it answers. *)
Lemma put_profile_accepted (E : Env) (now : Z) (user : Claims)
    (b : ProfileBody) (db : DB) :
  ¬ fails_validation E b → ¬ preferences_rejected E b →
  let old := Profile_findOne (sub user) (profiles db) in
  ∃ p ps', put_profile E now user b db
           = (ok (JsonProfile (hydrate now p)), with_profiles db ps')
       ∧ Profile_findOne (sub user) ps' = Some p
       ∧ profile_userId p = sub user
       ∧ text_member_stored (body_displayName b) (old ≫= displayName)
           (displayName p)
       ∧ text_member_stored (body_bio b) (old ≫= bio) (bio p)
       ∧ text_member_stored (body_avatar b) (old ≫= avatar) (avatar p)
       ∧ preferences_stored E b
           (before_upsert E old preferences default_preferences)
           (preferences p)
       ∧ createdAt p = before_upsert E old createdAt now
       ∧ updatedAt p = Some now
       ∧ placed (sub user) p (profiles db) ps'
       ∧ ∀ uid, uid ≠ sub user →
           Profile_findOne uid ps' = Profile_findOne uid (profiles db).
Proof.
  intros Hok Hacc. cbv zeta. rewrite put_profile_checked by done.
  unfold Profile_findOneAndUpdate.
  match goal with |- context [cast_UpdateData E ?d] =>
    pose proof (cast_UpdateData_spec E d) as Hcast;
    destruct (cast_UpdateData E d) as [u|] end.
  2:{ destruct Hacc. destruct Hcast as (value & Hv & Hc). by exists value. }
  cbn [data_updatedAt data_displayName data_avatar data_bio data_preferences]
    in Hcast.
  destruct Hcast as [-> Hcast].
  match goal with |- context [upsert E now ?uid ?u ?ps] =>
    pose proof (upsert_spec E now uid u ps) as Hs;
    destruct (upsert E now uid u ps) as [p ps'] end.
  cbv zeta in Hs. cbn [fst snd] in Hs. destruct Hs as (Hf & Hp & Hpl & Ho).
  exists p, ps'. cbn [fst snd].
  split; [done|]. split; [done|].
  split; [by eapply Profile_findOne_owner|].
  assert (∀ v o, text_member_stored v o
                   (or_keep (toWellFormed <$> sanitized_if_present v) o))
    as Hkeep by (by intros [] o).
  assert (∀ o, preferences_stored E b o
                 (or_keep (preferences_if_truthy (body_preferences b)
                             ≫= castPreferences E) o))
    as Hprefs.
  { intros o. unfold preferences_stored.
    destruct (preferences_if_truthy (body_preferences b)) as [value|]; [|done].
    specialize (Hcast value eq_refl). cbn.
    by destruct (castPreferences E value). }
  destruct (Profile_findOne (sub user) (profiles db)) as [q|] eqn:Hq; subst p.
  - cbn. by repeat split.
  - pose proof (Hprefs (if setDefaultsOnInsert E then Some default_preferences
                        else None)) as Hprefs'.
    cbn. repeat split; try done.
    + by destruct (body_displayName b).
    + by destruct (body_bio b).
    + by destruct (body_avatar b).
Qed.

(** C7, as amended.  PUT /profile by an authenticated user.  When a
    member among displayName, bio and avatar that is present in the
    body fails its check, the answer is 400 and the stored state is
    unchanged.  Otherwise, when the body carries a preferences member
    that the schema cannot cast, the answer is 500 and the stored state
    is unchanged.  Otherwise the request upserts: the caller's profile
    after it has each present text member sanitized, in the form the
    store holds text, each absent one as before, the preferences of the
    body as the schema casts them (as before when the body has none),
    createdAt as before and updatedAt set; it stands where the caller's
    profile stood, or at the end when there was none; nothing else in
    the store is touched; and the answer is 200 with this profile as it
    is read back, the schema defaults filled in. *)
Theorem put_profile_validates_then_upserts (E : Env) (now : Z) (req : Request)
    (user : Claims) (b : ProfileBody) (db : DB) :
  authenticated_as E req user →
  route req = PutProfile b →
  let r := serve E now req db in
  let old := Profile_findOne (sub user) (profiles db) in
  (fails_validation E b → status r.1 = 400%nat ∧ r.2 = db)
  ∧ (¬ fails_validation E b → preferences_rejected E b →
     r = (internal_error, db))
  ∧ (¬ fails_validation E b → ¬ preferences_rejected E b →
     ∃ p, r.1 = ok (JsonProfile (hydrate now p))
          ∧ Profile_findOne (sub user) (profiles r.2) = Some p
          ∧ profile_userId p = sub user
          ∧ text_member_stored (body_displayName b) (old ≫= displayName)
              (displayName p)
          ∧ text_member_stored (body_bio b) (old ≫= bio) (bio p)
          ∧ text_member_stored (body_avatar b) (old ≫= avatar) (avatar p)
          ∧ preferences_stored E b
              (before_upsert E old preferences default_preferences)
              (preferences p)
          ∧ createdAt p = before_upsert E old createdAt now
          ∧ updatedAt p = Some now
          ∧ placed (sub user) p (profiles db) (profiles r.2)
          ∧ tasks r.2 = tasks db
          ∧ ∀ uid, uid ≠ sub user →
              Profile_findOne uid (profiles r.2)
              = Profile_findOne uid (profiles db)).
Proof.
  intros Ha Hr. cbv zeta.
  rewrite (serve_authenticated _ _ _ _ _ Ha), Hr.
  split; [apply put_profile_refused|].
  split; [apply put_profile_rejected|].
  intros Hok Hacc.
  destruct (put_profile_accepted E now user b db Hok Hacc)
    as (p & ps' & -> & H).
  exists p. cbn [fst snd with_profiles profiles tasks].
  destruct H as (? & ? & ? & ? & ? & ? & ? & ? & ? & ?).
  by repeat split.
Qed.

Lemma put_profile_validates_then_upserts_witness :
  let refused := {| body_displayName := JStr (lit "");
                    body_avatar := JUndefined;
                    body_bio := JStr (lit "Hello");
                    body_preferences := None |} in
  let accepted := {| body_displayName := JStr (lit " Alice L. ");
                     body_avatar := JUndefined;
                     body_bio := JUndefined;
                     body_preferences :=
                       Some (PrefsObject (JStr (lit "light")) JUndefined) |} in
  let r := serve (example_env true) 5 (from_alice (PutProfile refused))
             example_db in
  let r' := serve (example_env true) 5 (from_alice (PutProfile accepted))
              example_db in
  (status r.1 = 400%nat ∧ r.2 = example_db)
  ∧ ∃ p, r'.1 = ok (JsonProfile (hydrate 5 p))
         ∧ displayName p = Some (lit "Alice L.")
         ∧ preferences p
           = Some {| theme := Value (lit "light");
                     emailNotifications := Absent |}
         ∧ profiles r'.2 = [p].
Proof.
  intros refused accepted. cbv zeta. split.
  - refine (proj1 (put_profile_validates_then_upserts (example_env true) 5
                     (from_alice (PutProfile refused)) alice refused
                     example_db _ _) _).
    + reflexivity.
    + reflexivity.
    + left. split; [discriminate|reflexivity].
  - destruct (proj2 (proj2 (put_profile_validates_then_upserts
                              (example_env true) 5
                              (from_alice (PutProfile accepted)) alice accepted
                              example_db eq_refl eq_refl)))
      as (p & Hr & _ & _ & Hd & _ & _ & Hp & _ & _ & Hpl & _).
    + intros [[_ H]|[[H _]|[H _]]]; [discriminate H|by destruct H..].
    + intros (value & Hv & Hc). injection Hv as <-.
      vm_compute in Hc. discriminate Hc.
    + exists p. split; [exact Hr|]. split; [exact Hd|].
      split; [exact Hp|exact Hpl].
Defined.

(** C7, the property as written fails: every text member of the body
    passes its check, the emailNotifications member of its preferences
    is the string 'maybe', which the Boolean type of the schema cannot
    cast; the update throws, the answer is 500, no profile is upserted
    and none is returned. *)
Lemma put_profile_uncastable_preferences_is_500 :
  let b := {| body_displayName := JStr (lit "Alice");
              body_avatar := JUndefined;
              body_bio := JUndefined;
              body_preferences :=
                Some (PrefsObject JUndefined (JStr (lit "maybe"))) |} in
  let req := from_alice (PutProfile b) in
  let r := serve (example_env true) 5 req example_db in
  authenticated_as (example_env true) req alice
  ∧ ¬ fails_validation (example_env true) b
  ∧ r.1 = internal_error
  ∧ r.2 = example_db
  ∧ Profile_findOne (sub alice) (profiles r.2) = None.
Proof.
  cbv zeta. split; [reflexivity|]. split.
  - intros [[_ H]|[[H _]|[H _]]]; [vm_compute in H; discriminate H|done|done].
  - vm_compute. by repeat split.
Qed.

Example put_profile_stores_sanitized_bio :
  let b := {| body_displayName := JStr (lit "  Alice L.  ");
              body_avatar := JUndefined;
              body_bio := JStr (lit "I <3 lists");
              body_preferences := None |} in
  (serve (example_env true) 5 (from_alice (PutProfile b)) empty_db).1
  = ok (JsonProfile
          {| profile_userId := sub alice;
             displayName := Some (lit "Alice L.");
             avatar := None;
             bio := Some (lit "I 3 lists");
             preferences := Some default_preferences;
             createdAt := Some 5%Z;
             updatedAt := Some 5%Z |}).
Proof. vm_compute. reflexivity. Qed.

Lemma get_profile_absent (now : Z) (user : Claims) (db : DB) :
  Profile_findOne (sub user) (profiles db) = None →
  get_profile now user db
  = let p := new_UserProfile now (sub user)
               (js_or (name user) (js_or (email user) (lit "User")))
               (generateShapesAvatar (sub user)) in
    (ok (JsonProfile p), with_profiles db (profiles db ++ [p])).
Proof. intros H. unfold get_profile. by rewrite H. Qed.

Lemma get_profile_present (now : Z) (user : Claims) (db : DB) (p : UserProfile) :
  Profile_findOne (sub user) (profiles db) = Some p →
  get_profile now user db = (ok (JsonProfile (hydrate now p)), db).
Proof. intros H. unfold get_profile. by rewrite H. Qed.

(** C8.  For a user without a profile, two GET /profile calls in
    succession create exactly one profile: the first call stores a new
    profile with the generated avatar and the display name taken from
    the token (name, else email, else 'User') and returns it; the
    second call returns that same profile and leaves the store as the
    first call left it. *)
Theorem get_profile_twice_creates_one (E : Env) (now now' : Z) (req : Request)
    (user : Claims) (db : DB) :
  authenticated_as E req user →
  route req = GetProfile →
  Profile_findOne (sub user) (profiles db) = None →
  let first := serve E now req db in
  let second := serve E now' req first.2 in
  ∃ p, first.1 = ok (JsonProfile p)
       ∧ second.1 = ok (JsonProfile p)
       ∧ second.2 = first.2
       ∧ profiles first.2 = profiles db ++ [p]
       ∧ profile_count (sub user) second.2 = 1%nat
       ∧ profile_userId p = sub user
       ∧ avatar p = Some (generateShapesAvatar (sub user))
       ∧ displayName p
         = Some (js_or (name user) (js_or (email user) (lit "User"))).
Proof.
  intros Ha Hr Hn. cbv zeta.
  rewrite !(serve_authenticated _ _ _ _ _ Ha), Hr.
  rewrite (get_profile_absent now user db Hn). cbn [fst snd].
  set (p := new_UserProfile now (sub user) _ _).
  assert (Profile_findOne (sub user) (profiles db ++ [p]) = Some p) as Hp.
  { rewrite (Profile_findOne_app_new (sub user) (sub user)) by done.
    by rewrite bool_decide_eq_true_2. }
  rewrite (get_profile_present now' user _ p) by done.
  exists p. cbn [fst snd]. repeat split.
  unfold profile_count. cbn [with_profiles profiles].
  rewrite List.filter_app, length_app.
  pose proof (profile_count_none (sub user) db Hn) as H0.
  unfold profile_count in H0. rewrite H0. cbn.
  unfold owned_by. by rewrite bool_decide_eq_true_2.
Qed.

Lemma get_profile_twice_creates_one_witness :
  let first := serve (example_env true) 5 (from_alice GetProfile) example_db in
  let second := serve (example_env true) 9 (from_alice GetProfile) first.2 in
  ∃ p, first.1 = ok (JsonProfile p)
       ∧ second.1 = ok (JsonProfile p)
       ∧ profile_count (sub alice) second.2 = 1%nat.
Proof.
  destruct (get_profile_twice_creates_one (example_env true) 5 9
              (from_alice GetProfile) alice example_db)
    as (p & H1 & H2 & _ & _ & Hc & _).
  - reflexivity.
  - reflexivity.
  - reflexivity.
  - exists p. split; [exact H1|]. split; [exact H2|exact Hc].
Defined.

Example get_profile_of_bob :
  (serve (example_env true) 5 (from_bob GetProfile) example_db).1
  = ok (JsonProfile
          {| profile_userId := lit "auth0|bob";
             displayName := Some (lit "bob@example.com");
             avatar := Some (lit "https://api.dicebear.com/7.x/shapes/svg?seed=YXV0aDB8Ym&backgroundColor=0f0f23&primaryColor=6366f1");
             bio := None;
             preferences := Some default_preferences;
             createdAt := Some 5%Z;
             updatedAt := Some 5%Z |}).
Proof. vm_compute. reflexivity. Qed.

(** ** Sanitizing and checking lengths *)

(** Titles are sanitized first and checked afterwards: the title of a
    created task is the sanitized payload title and has between 1 and
    100 code units, and so has the title an update stores. *)
Lemma post_task_title_within_limits (user : Claims) (t : jsval) (db : DB)
    (id : N) (T : Task) :
  (post_task user t db).1 = ok (JsonTask id T) →
  title T = sanitizeInput t ∧ (1 ≤ length (title T) ≤ 100)%nat.
Proof.
  unfold post_task.
  destruct (validateTitle (JStr (sanitizeInput t))) eqn:Hv; [|done].
  intros [= _ <-]. split; [done|]. by apply validateTitle_sanitized.
Qed.

Lemma updated_task_title_within_limits (E : Env) (now : Z) (T : Task)
    (t c : jsval) :
  validateTitle (JStr (sanitizeInput t)) = true →
  (1 ≤ length (title (updated_task E now T t c)) ≤ 100)%nat.
Proof.
  intros Hv. cbn [title updated_task]. rewrite toWellFormed_length.
  by apply validateTitle_sanitized.
Qed.

(** C6, at the failing input.  PUT /profile checks the raw display
    name and sanitizes it afterwards: the display name "<" passes the
    check (one code unit), is sanitized to the empty string and stored,
    so the stored display name is outside [1,50]; and a display name of
    49 letters between two angle brackets is refused although its
    sanitized text has 49 code units. *)
Theorem put_profile_checks_raw_display_name :
  let b v := {| body_displayName := JStr v; body_avatar := JUndefined;
                body_bio := JUndefined; body_preferences := None |} in
  let r := serve (example_env true) 5 (from_alice (PutProfile (b (lit "<"))))
             empty_db in
  let wide := lit "<" ++ replicate 49 97 ++ lit ">" in
  let r' := serve (example_env true) 5 (from_alice (PutProfile (b wide)))
              empty_db in
  (status r.1 = 200%nat
   ∧ ∃ p, Profile_findOne (sub alice) (profiles r.2) = Some p
          ∧ displayName p = Some []
          ∧ validateDisplayName (JStr []) = false)
  ∧ (status r'.1 = 400%nat
     ∧ validateDisplayName (JStr (sanitizeInput (JStr wide))) = true).
Proof.
  vm_compute. repeat split. eexists. repeat split.
Qed.

(** * Further properties of the code *)

(** ** More on the sanitizer *)

Lemma stripAngles_fixed (s : jsstring) : angle_free s → stripAngles s = s.
Proof.
  induction 1 as [|c s Hc Hs IH]; [done|].
  unfold stripAngles in *. cbn. by rewrite Hc, IH.
Qed.

Lemma sanitizeInput_angle_free (v : jsval) : angle_free (sanitizeInput v).
Proof.
  destruct v; try by constructor.
  rewrite sanitizeInput_string. apply trim_angle_free, stripAngles_angle_free.
Qed.

(** X1.  Whatever the input, the text [sanitizeInput] returns holds no
    angle bracket and no leading or trailing white space; for a string
    it is never longer than the input, and for anything that is not a
    string it is empty. *)
Theorem sanitizeInput_clean (v : jsval) :
  angle_free (sanitizeInput v)
  ∧ trim (sanitizeInput v) = sanitizeInput v
  ∧ match v with
    | JStr s => (length (sanitizeInput v) ≤ length s)%nat
    | _ => sanitizeInput v = []
    end.
Proof.
  split; [apply sanitizeInput_angle_free|].
  split; [apply sanitizeInput_trimmed|].
  destruct v; try done. apply sanitizeInput_length.
Qed.

(** X2.  Sanitizing is idempotent: sanitized text passes through
    [sanitizeInput] unchanged. *)
Theorem sanitizeInput_idempotent (v : jsval) :
  sanitizeInput (JStr (sanitizeInput v)) = sanitizeInput v.
Proof.
  rewrite (sanitizeInput_string (sanitizeInput v)).
  rewrite stripAngles_fixed by apply sanitizeInput_angle_free.
  apply sanitizeInput_trimmed.
Qed.

Lemma trimStart_blank (s : jsstring) :
  Forall (λ c, isWhiteSpace c = true) s → trimStart s = [].
Proof. induction 1 as [|c s Hc Hs IH]; cbn; [done|]. by rewrite Hc. Qed.

Lemma trim_blank (s : jsstring) :
  Forall (λ c, isWhiteSpace c = true) s → trim s = [].
Proof. intros H. unfold trim. by rewrite trimStart_blank. Qed.

Lemma stripAngles_blank (s : jsstring) :
  Forall (λ c, isWhiteSpace c = true ∨ isAngle c = true) s →
  Forall (λ c, isWhiteSpace c = true) (stripAngles s).
Proof.
  induction 1 as [|c s Hc Hs IH]; [constructor|].
  unfold stripAngles in *. cbn.
  destruct (isAngle c) eqn:Ha; cbn; [done|].
  constructor; [|done]. by destruct Hc.
Qed.

(** X3.  A title made of nothing but white space and angle brackets
    (the empty title included), and any title that is not a string, is
    refused by POST /tasks with 400 and nothing is stored. *)
Theorem post_task_blank_title_is_400 (E : Env) (now : Z) (req : Request)
    (user : Claims) (t : jsval) (db : DB) :
  authenticated_as E req user →
  route req = PostTasks t →
  match t with
  | JStr s => Forall (λ c, isWhiteSpace c = true ∨ isAngle c = true) s
  | _ => True
  end →
  serve E now req db = (error 400 "Invalid title input.", db).
Proof.
  intros Ha Hr Ht. rewrite (serve_authenticated _ _ _ _ _ Ha), Hr.
  apply post_task_invalid.
  assert (sanitizeInput t = []) as ->; [|done].
  destruct t; try done.
  rewrite sanitizeInput_string. by apply trim_blank, stripAngles_blank.
Qed.

Lemma post_task_blank_title_is_400_witness :
  serve (example_env true) 5 (from_alice (PostTasks (JStr (lit " <> ")))) example_db
  = (error 400 "Invalid title input.", example_db).
Proof.
  apply (post_task_blank_title_is_400 _ _ _ alice (JStr (lit " <> "))).
  - reflexivity.
  - reflexivity.
  - cbn. repeat (constructor; [first [left; reflexivity|right; reflexivity]|]).
    constructor.
Defined.

(** ** More on the bearer-token check *)

Lemma split_piece (sep : N) (piece : jsstring) :
  Forall (λ c, c ≠ sep) piece →
  split sep piece = [piece]
  ∧ ∀ more, split sep (piece ++ sep :: more) = piece :: split sep more.
Proof.
  induction 1 as [|c piece Hc Hp [IH1 IH2]]; cbn.
  - split; [done|]. intros more. by rewrite N.eqb_refl.
  - apply N.eqb_neq in Hc. rewrite Hc. split.
    + by rewrite IH1.
    + intros more. by rewrite IH2.
Qed.

(** X4.  The token the check verifies is the text between the first
    and the second blank of the header: for a header "Bearer " followed
    by a token without blanks, the outcome is that of [jwt.verify] on
    this token (the decoded claims, or 401 "Invalid token"), and
    whatever follows a further blank is ignored. *)
Theorem jwtCheck_verifies_first_token (E : Env) (token ignored : jsstring) :
  Forall (λ c, c ≠ space) token →
  let outcome :=
    match jwt_verify E token with
    | Some decoded => inr decoded
    | None => inl (error 401 "Invalid token")
    end in
  jwtCheck E (Some (lit "Bearer " ++ token)) = outcome
  ∧ jwtCheck E (Some (lit "Bearer " ++ token ++ space :: ignored)) = outcome.
Proof.
  intros Ht. cbv zeta. destruct (split_piece space token Ht) as [H1 H2].
  unfold jwtCheck.
  assert (∀ rest, startsWith (lit "Bearer " ++ rest) (lit "Bearer ") = true)
    as Hs by (intros rest; apply startsWith_prefix; by eexists).
  assert (∀ rest, truthy (JStr (lit "Bearer " ++ rest)) = true)
    as Hn by done.
  rewrite !Hs, !Hn. cbn [negb orb].
  assert (Forall (λ c, c ≠ space) (lit "Bearer")) as Hb.
  { vm_compute. repeat (constructor; [intros H; discriminate H|]). constructor. }
  destruct (split_piece space (lit "Bearer") Hb) as [_ Hsplit].
  split.
  - change (lit "Bearer " ++ token)
      with (lit "Bearer" ++ space :: token).
    rewrite Hsplit, H1. cbn. by destruct (jwt_verify E token).
  - change (lit "Bearer " ++ token ++ space :: ignored)
      with (lit "Bearer" ++ space :: (token ++ space :: ignored)).
    rewrite Hsplit, H2. cbn. by destruct (jwt_verify E token).
Qed.

Lemma jwtCheck_verifies_first_token_witness :
  jwtCheck (example_env true) (Some (lit "Bearer alice.jwt and more"))
  = inr alice.
Proof.
  refine (proj2 (jwtCheck_verifies_first_token (example_env true)
                   (lit "alice.jwt") (lit "and more") _)).
  vm_compute. repeat (constructor; [intros H; discriminate H|]). constructor.
Defined.

Lemma jwtCheck_refuses_with_401 (E : Env) (h : option jsstring) (r : Response) :
  jwtCheck E h = inl r → status r = 401%nat.
Proof.
  unfold jwtCheck. destruct h as [h|]; [|by intros [= <-]].
  destruct (negb _ || negb _); [by intros [= <-]|].
  destruct (split space h !! 1%nat) as [token|]; [|by intros [= <-]].
  destruct (jwt_verify E token); [done|by intros [= <-]].
Qed.

(** X5.  A request to a protected route that does not pass the token
    check, for whatever reason (no header, another scheme, a token that
    does not verify), is answered 401 and leaves the store as it
    was. *)
Theorem unverified_request_is_401 (E : Env) (now : Z) (req : Request)
    (db : DB) :
  protected (route req) = true →
  (∀ user, ¬ authenticated_as E req user) →
  status (serve E now req db).1 = 401%nat ∧ (serve E now req db).2 = db.
Proof.
  unfold authenticated_as, serve, behind_jwtCheck. intros Hp Hn.
  destruct (jwtCheck E (authorization req)) as [r|user] eqn:Hj.
  - apply jwtCheck_refuses_with_401 in Hj. by destruct (route req).
  - by destruct (Hn user).
Qed.

Lemma unverified_request_is_401_witness :
  let req := {| authorization := Some (lit "Bearer forged.jwt");
                route := DeleteTask (Some 0) |} in
  status (serve (example_env true) 5 req example_db).1 = 401%nat
  ∧ (serve (example_env true) 5 req example_db).2 = example_db.
Proof.
  apply unverified_request_is_401; [reflexivity|].
  intros user H. vm_compute in H. discriminate H.
Defined.

(** ** What a request may do to the tasks *)

Lemma put_task_write (E : Env) (now : Z) (user : Claims) (id : IdParam)
    (t c : jsval) (db : DB) :
  (put_task E now user id t c db).2 = db
  ∨ ∃ i T, id = Some i
           ∧ tasks db !! i = Some T
           ∧ userId T = sub user
           ∧ validateTitle (JStr (sanitizeInput t)) = true
           ∧ castBoolean c ≠ CastError
           ∧ put_task E now user id t c db
             = (ok (JsonTask i (updated_task E now T t c)),
                with_tasks db (<[i := updated_task E now T t c]> (tasks db))).
Proof.
  destruct (validateTitle (JStr (sanitizeInput t))) eqn:Hv;
    [|left; unfold put_task; by rewrite Hv].
  destruct id as [i|]; [|left; unfold put_task; by rewrite Hv].
  destruct (Task_findOne i (sub user) (tasks db)) as [T|] eqn:Hf;
    [|left; unfold put_task; by rewrite Hv, Hf].
  apply Task_findOne_Some in Hf as [HT Hu].
  rewrite (put_task_owned _ _ _ _ _ _ _ T) by done.
  destruct (castBoolean c) eqn:Hc; [by left| |];
    right; exists i, T; by repeat split.
Qed.

Lemma delete_task_write (user : Claims) (id : IdParam) (db : DB) :
  (delete_task user id db).2 = db
  ∨ ∃ i T, id = Some i
           ∧ tasks db !! i = Some T
           ∧ userId T = sub user
           ∧ delete_task user id db
             = (ok (JsonMessage (lit "Task deleted")),
                with_tasks db (delete i (tasks db))).
Proof.
  unfold delete_task. destruct id as [i|]; [|by left].
  destruct (Task_findOne i (sub user) (tasks db)) as [T|] eqn:Hf; [|by left].
  apply Task_findOne_Some in Hf as [HT Hu]. right. by exists i, T.
Qed.

(** Every change a request makes to the tasks collection is one of the
    writes of [task_write], made for the user the token names. *)
Lemma serve_task_write (E : Env) (now : Z) (req : Request) (db : DB) :
  tasks (serve E now req db).2 = tasks db
  ∨ ∃ user, authenticated_as E req user
            ∧ task_write E now user (tasks db) (tasks (serve E now req db).2).
Proof.
  unfold serve, behind_jwtCheck, authenticated_as.
  destruct (route req) as [| |b| |t|id t c|id|]; try by left.
  all: destruct (jwtCheck E (authorization req)) as [?|user]; [by left|].
  - left. unfold get_profile. by destruct (Profile_findOne _ _).
  - left. unfold put_profile.
    repeat (match goal with |- context [if ?x then _ else _] =>
              destruct x; [done|] end).
    by destruct (Profile_findOneAndUpdate _ _ _ _ _) as [[? ?]|].
  - by left.
  - unfold post_task.
    destruct (validateTitle (JStr (sanitizeInput t))) eqn:Hv; [|by left].
    right. exists user. split; [done|]. by apply write_created.
  - destruct (put_task_write E now user id t c db)
      as [->|(i & T & -> & HT & Hu & Hv & Hc & ->)]; [by left|].
    right. exists user. split; [done|]. by apply write_updated.
  - destruct (delete_task_write user id db)
      as [->|(i & T & -> & HT & Hu & ->)]; [by left|].
    right. exists user. split; [done|]. by eapply write_deleted.
Qed.

Lemma authenticated_as_unique (E : Env) (req : Request) (u u' : Claims) :
  authenticated_as E req u → authenticated_as E req u' → u = u'.
Proof. unfold authenticated_as. congruence. Qed.

(** X6.  A request that is not answered 200 writes nothing: after any
    response with an error status (400, 401, 404, 500) the store is the
    one before the request. *)
Theorem failed_request_writes_nothing (E : Env) (now : Z) (req : Request)
    (db : DB) :
  status (serve E now req db).1 ≠ 200%nat → (serve E now req db).2 = db.
Proof.
  unfold serve, behind_jwtCheck.
  destruct (route req) as [| |b| |t|id t c|id|]; try done.
  all: destruct (jwtCheck E (authorization req)) as [?|user]; [done|].
  - unfold get_profile. by destruct (Profile_findOne _ _).
  - unfold put_profile.
    repeat (match goal with |- context [if ?x then _ else _] =>
              destruct x; [done|] end).
    by destruct (Profile_findOneAndUpdate _ _ _ _ _) as [[? ?]|].
  - done.
  - unfold post_task. by destruct (validateTitle _).
  - destruct (put_task_write E now user id t c db)
      as [->|(i & T & _ & _ & _ & _ & _ & ->)]; done.
  - destruct (delete_task_write user id db)
      as [->|(i & T & _ & _ & _ & ->)]; done.
Qed.

Lemma failed_request_writes_nothing_witness :
  (serve (example_env true) 5
     (from_alice (PutTask None (JStr (lit "Buy milk")) (JBool true)))
     example_db).2 = example_db.
Proof.
  apply failed_request_writes_nothing. vm_compute. discriminate.
Defined.

(** X7.  Tasks are isolated by owner: a request that is not
    authenticated as the owner of a task, whatever its route and body,
    leaves that task in the store exactly as it was. *)
Theorem foreign_request_leaves_task (E : Env) (now : Z) (req : Request)
    (db : DB) (id : N) (T : Task) :
  tasks db !! id = Some T →
  (∀ user, authenticated_as E req user → sub user ≠ userId T) →
  tasks (serve E now req db).2 !! id = Some T.
Proof.
  intros HT Hforeign.
  destruct (serve_task_write E now req db) as [->|(user & Ha & Hw)]; [done|].
  specialize (Hforeign user Ha).
  destruct Hw as [|t Hv|i T0 t c HT0 Hu Hv Hc|i T0 HT0 Hu].
  - done.
  - rewrite lookup_insert_ne; [done|]. intros <-.
    pose proof (is_fresh (dom (tasks db))) as Hfresh.
    apply Hfresh, elem_of_dom. by eexists.
  - rewrite lookup_insert_ne; [done|]. intros ->. congruence.
  - rewrite lookup_delete_ne; [done|]. intros ->. congruence.
Qed.

Lemma foreign_request_leaves_task_witness :
  tasks (serve (example_env true) 5
           (from_bob (PutTask (Some 0) (JStr (lit "Mine now")) (JBool true)))
           example_db).2 !! 0 = Some milk.
Proof.
  apply foreign_request_leaves_task; [reflexivity|].
  intros user H. vm_compute in H. injection H as <-. vm_compute.
  discriminate.
Defined.

(** X8.  The owner of a task never changes: whatever request is
    served, a task that is still stored afterwards has the userId it had
    before. *)
Theorem task_owner_is_immutable (E : Env) (now : Z) (req : Request) (db : DB)
    (id : N) (T T' : Task) :
  tasks db !! id = Some T →
  tasks (serve E now req db).2 !! id = Some T' →
  userId T' = userId T.
Proof.
  intros HT.
  destruct (serve_task_write E now req db) as [->|(user & Ha & Hw)];
    [congruence|].
  destruct Hw as [|t Hv|i T0 t c HT0 Hu Hv Hc|i T0 HT0 Hu].
  - congruence.
  - rewrite lookup_insert_ne; [congruence|]. intros <-.
    pose proof (is_fresh (dom (tasks db))) as Hfresh.
    apply Hfresh, elem_of_dom. by eexists.
  - rewrite lookup_insert. case_decide; [|congruence].
    subst. intros [= <-]. cbn. congruence.
  - rewrite lookup_delete. case_decide; [done|congruence].
Qed.

Lemma task_owner_is_immutable_witness :
  ∃ T', tasks (serve (example_env true) 5
                 (from_alice (PutTask (Some 0) (JStr (lit "Buy oat milk"))
                                (JBool true))) example_db).2 !! 0 = Some T'
        ∧ userId T' = userId milk.
Proof.
  eexists. split; [vm_compute; reflexivity|].
  refine (task_owner_is_immutable (example_env true) 5
            (from_alice (PutTask (Some 0) (JStr (lit "Buy oat milk"))
                           (JBool true))) example_db 0 milk _ _ _).
  - reflexivity.
  - vm_compute. reflexivity.
Defined.

(** ** Creating, listing and deleting *)

(** X9.  POST /tasks with a title that passes validation answers 200
    with the new task as the handler holds it (sanitized title, not
    completed, no completion date, owned by the caller) under an id no
    task had; the store then has this task under that id with the
    title in the form the store holds text (a surrogate code unit
    without its partner is held as U+FFFD); every task stored before is
    still there unchanged; and a GET /tasks by the same user right
    afterwards lists the task as it is stored. *)
Theorem post_task_then_list (E : Env) (now now' : Z) (auth : option jsstring)
    (user : Claims) (t : jsval) (db : DB) :
  jwtCheck E auth = inr user →
  validateTitle (JStr (sanitizeInput t)) = true →
  let created := serve E now {| authorization := auth; route := PostTasks t |} db in
  let listed := serve E now' {| authorization := auth; route := GetTasks |} created.2 in
  ∃ id l,
    let T := {| title := sanitizeInput t; completed := Some false;
                completedAt := None; userId := sub user |} in
    let stored := {| title := toWellFormed (sanitizeInput t);
                     completed := Some false;
                     completedAt := None; userId := sub user |} in
    created.1 = ok (JsonTask id T)
    ∧ tasks db !! id = None
    ∧ tasks created.2 !! id = Some stored
    ∧ (∀ i T0, tasks db !! i = Some T0 → tasks created.2 !! i = Some T0)
    ∧ listed = (ok (JsonTasks l), created.2)
    ∧ (id, stored) ∈ l.
Proof.
  intros Ha Hv. cbv zeta.
  assert (∀ r, authenticated_as E {| authorization := auth; route := r |} user)
    as Hauth by done.
  rewrite !(serve_authenticated _ _ _ _ _ (Hauth _)). cbn [route].
  destruct (post_task_valid user t db Hv) as [Hnew ->]. cbn [fst snd].
  eexists _, _. split; [done|]. split; [done|].
  cbn [with_tasks tasks]. split; [apply lookup_insert_eq|].
  split.
  { intros i T0 Hi. rewrite lookup_insert_ne; [done|]. congruence. }
  split; [done|].
  apply (Task_find_sorted_spec (sub user)). split; [|done].
  apply lookup_insert_eq.
Qed.

Lemma post_task_then_list_witness :
  ∃ id l, (serve (example_env true) 6 (from_bob GetTasks)
             (serve (example_env true) 5
                (from_bob (PostTasks (JStr (lit " Call <mum> "))))
                example_db).2).1 = ok (JsonTasks l)
          ∧ (id, {| title := lit "Call mum"; completed := Some false;
                    completedAt := None; userId := sub bob |}) ∈ l.
Proof.
  destruct (post_task_then_list (example_env true) 5 6
              (Some (lit "Bearer bob.jwt")) bob (JStr (lit " Call <mum> "))
              example_db) as (id & l & _ & _ & _ & _ & Hl & Hin).
  - reflexivity.
  - reflexivity.
  - exists id, l. split; [|exact Hin].
    exact (f_equal fst Hl).
Defined.

(** A created task whose title ends in a high surrogate: the answer
    carries the title as sent, the store holds it with U+FFFD. *)
Example post_task_lone_surrogate :
  let r := serve (example_env true) 5
             (from_bob (PostTasks (JStr [97; 55357]))) example_db in
  r.1 = ok (JsonTask 2 {| title := [97; 55357]; completed := Some false;
                          completedAt := None; userId := sub bob |})
  ∧ tasks r.2 !! 2
    = Some {| title := [97; 65533]; completed := Some false;
              completedAt := None; userId := sub bob |}.
Proof. vm_compute. done. Qed.

(** X10.  DELETE /tasks/:id by the owner answers 200, removes that
    task and no other; the same request repeated is answered 404 and
    changes nothing. *)
Theorem delete_task_removes_once (E : Env) (now now' : Z) (req : Request)
    (user : Claims) (db : DB) (id : N) (T : Task) :
  authenticated_as E req user →
  route req = DeleteTask (Some id) →
  tasks db !! id = Some T →
  userId T = sub user →
  let first := serve E now req db in
  let second := serve E now' req first.2 in
  first.1 = ok (JsonMessage (lit "Task deleted"))
  ∧ tasks first.2 !! id = None
  ∧ (∀ i, i ≠ id → tasks first.2 !! i = tasks db !! i)
  ∧ profiles first.2 = profiles db
  ∧ second = (error 404 "Task not found", first.2).
Proof.
  intros Ha Hr HT Hu. cbv zeta.
  rewrite !(serve_authenticated _ _ _ _ _ Ha), Hr.
  assert (delete_task user (Some id) db
          = (ok (JsonMessage (lit "Task deleted")),
             with_tasks db (delete id (tasks db)))) as ->.
  { unfold delete_task.
    by rewrite (proj2 (Task_findOne_Some _ _ _ T)). }
  cbn [fst snd with_tasks tasks profiles].
  split; [done|]. split; [apply lookup_delete_eq|].
  split; [intros i Hi; by apply lookup_delete_ne|]. split; [done|].
  apply delete_task_not_found, Task_findOne_missing. cbn.
  apply lookup_delete_eq.
Qed.

Lemma delete_task_removes_once_witness :
  let first := serve (example_env true) 5 (from_alice (deleteTask 1)) example_db in
  first.1 = ok (JsonMessage (lit "Task deleted"))
  ∧ tasks first.2 !! 1 = None.
Proof.
  destruct (delete_task_removes_once (example_env true) 5 6
              (from_alice (deleteTask 1)) alice example_db 1 report)
    as (H1 & H2 & _).
  - reflexivity.
  - reflexivity.
  - reflexivity.
  - reflexivity.
  - split; [exact H1|exact H2].
Defined.

(** ** Invariants of the reachable stores *)

Lemma run_invariant (E : Env) (P : DB → Prop) :
  (∀ now req db, P db → P (serve E now req db).2) →
  ∀ reqs db, P db → P (run E reqs db).
Proof.
  intros Hstep reqs. unfold run.
  induction reqs as [|[now req] reqs IH]; intros db Hdb; [done|].
  cbn [foldl]. by apply IH, Hstep.
Qed.

Lemma sanitized_title_clean (t : jsval) :
  validateTitle (JStr (sanitizeInput t)) = true →
  title_clean (sanitizeInput t).
Proof.
  intros Hv. split; [apply sanitizeInput_angle_free|].
  split; [apply sanitizeInput_trimmed|]. by apply validateTitle_sanitized.
Qed.

Lemma stored_title_clean (t : jsval) :
  validateTitle (JStr (sanitizeInput t)) = true →
  title_clean (toWellFormed (sanitizeInput t)).
Proof.
  intros (Ha & Ht & Hl)%sanitized_title_clean.
  pose proof (toWellFormed_same_kind (sanitizeInput t)) as Hk.
  split; [by eapply same_kind_angle_free|].
  split; [by eapply same_kind_trimmed|]. by rewrite toWellFormed_length.
Qed.

Lemma titles_clean_step (E : Env) (now : Z) (req : Request) (db : DB) :
  titles_clean db → titles_clean (serve E now req db).2.
Proof.
  intros Hdb id T.
  destruct (serve_task_write E now req db) as [->|(user & _ & Hw)];
    [apply Hdb|].
  destruct Hw as [|t Hv|i T0 t c HT0 Hu Hv Hc|i T0 HT0 Hu].
  - apply Hdb.
  - rewrite lookup_insert. case_decide; [|apply Hdb].
    intros [= <-]. by apply stored_title_clean.
  - rewrite lookup_insert. case_decide; [|apply Hdb].
    intros [= <-]. by apply stored_title_clean.
  - intros [_ H]%lookup_delete_Some. by apply (Hdb id).
Qed.

Lemma titles_held_step (E : Env) (now : Z) (req : Request) (db : DB) :
  titles_held db → titles_held (serve E now req db).2.
Proof.
  intros Hdb id T.
  destruct (serve_task_write E now req db) as [->|(user & _ & Hw)];
    [apply Hdb|].
  destruct Hw as [|t Hv|i T0 t c HT0 Hu Hv Hc|i T0 HT0 Hu].
  - apply Hdb.
  - rewrite lookup_insert. case_decide; [|apply Hdb].
    intros [= <-]. apply toWellFormed_fixed.
  - rewrite lookup_insert. case_decide; [|apply Hdb].
    intros [= <-]. apply toWellFormed_fixed.
  - intros [_ H]%lookup_delete_Some. by apply (Hdb id).
Qed.

Lemma titles_held_empty : titles_held empty_db.
Proof. intros id T. cbn. by rewrite lookup_empty. Qed.

Lemma titles_clean_empty : titles_clean empty_db.
Proof. intros id T. cbn. by rewrite lookup_empty. Qed.

(** X11.  In every store reachable from the empty one, by whatever
    requests, every stored title is sanitized text: it holds no angle
    bracket, has no leading or trailing white space, and has between 1
    and 100 code units. *)
Theorem stored_titles_are_clean (E : Env) (reqs : list (Z * Request)) :
  titles_clean (run E reqs empty_db).
Proof.
  apply run_invariant; [apply titles_clean_step|apply titles_clean_empty].
Qed.

Lemma boolean_updates_stay_consistent_witness :
  all_consistent
    (run (example_env true)
       [(1%Z, from_alice (PostTasks (JStr (lit "Buy milk"))));
        (2%Z, from_alice (toggleComplete 0 milk));
        (3%Z, from_alice (deleteTask 0))] empty_db).
Proof.
  apply boolean_updates_stay_consistent.
  repeat (constructor; [unfold boolean_flag; cbn; try done; by eexists|]).
  constructor.
Defined.

Lemma count_app_new (uid : jsstring) (ps : list UserProfile) (p : UserProfile) :
  length (List.filter (owned_by uid) (ps ++ [p]))
  = (length (List.filter (owned_by uid) ps)
     + if owned_by uid p then 1 else 0)%nat.
Proof.
  rewrite List.filter_app, length_app. cbn. by destruct (owned_by uid p).
Qed.

Lemma count_update_first (uid uid' : jsstring) (u : ProfileUpdate)
    (ps ps' : list UserProfile) (q : UserProfile) :
  update_first uid u ps = Some (q, ps') →
  length (List.filter (owned_by uid') ps')
  = length (List.filter (owned_by uid') ps).
Proof.
  revert ps' q. induction ps as [|p ps IH]; intros ps' q; cbn; [done|].
  destruct (owned_by uid p).
  - intros [= _ <-]. cbn.
    assert (owned_by uid' (apply_ProfileUpdate u p) = owned_by uid' p) as ->
      by done.
    by destruct (owned_by uid' p).
  - destruct (update_first uid u ps) as [[q' ps'']|]; [|done].
    intros [= _ <-]. cbn. specialize (IH ps'' q' eq_refl).
    destruct (owned_by uid' p); cbn; by rewrite IH.
Qed.

Lemma count_none (uid : jsstring) (ps : list UserProfile) :
  Profile_findOne uid ps = None → length (List.filter (owned_by uid) ps) = 0%nat.
Proof.
  unfold Profile_findOne. induction ps as [|q ps IH]; cbn; [done|].
  by destruct (owned_by uid q).
Qed.

Lemma count_upsert (E : Env) (now : Z) (uid uid' : jsstring)
    (u : ProfileUpdate) (ps : list UserProfile) :
  (length (List.filter (owned_by uid') ps) ≤ 1)%nat →
  (length (List.filter (owned_by uid') (upsert E now uid u ps).2) ≤ 1)%nat.
Proof.
  intros Hle. unfold upsert.
  destruct (update_first uid u ps) as [[q ps']|] eqn:Hup.
  - cbn. by rewrite (count_update_first _ _ _ _ _ _ Hup).
  - cbn [snd]. rewrite count_app_new.
    change (owned_by uid' (inserted_UserProfile E now uid u))
      with (bool_decide (uid = uid')).
    case_bool_decide as Hu; [|lia]. subst uid'.
    assert (Profile_findOne uid ps = None) as Hn.
    { destruct (Profile_findOne uid ps) as [p|] eqn:Hp; [|done].
      destruct (update_first_found uid u ps p Hp) as (? & Hsome & _).
      congruence. }
    rewrite (count_none _ _ Hn). lia.
Qed.

(** X13.  In every store reachable from the empty one no user has more
    than one profile, whatever mixture of GET /profile and PUT /profile
    requests (and any others) was served. *)
Theorem one_profile_per_user (E : Env) (reqs : list (Z * Request)) :
  one_profile_each (run E reqs empty_db).
Proof.
  apply run_invariant; [|intros uid; cbn; lia].
  intros now req db Hdb uid. specialize (Hdb uid).
  unfold profile_count in *. unfold serve, behind_jwtCheck.
  destruct (route req) as [| |b| |t|id t c|id|]; try done.
  all: destruct (jwtCheck E (authorization req)) as [?|user]; [done|].
  - unfold get_profile.
    destruct (Profile_findOne (sub user) (profiles db)) as [p|] eqn:Hp;
      [done|].
    cbn [snd with_profiles profiles]. rewrite count_app_new.
    match goal with |- context [owned_by uid (new_UserProfile ?a ?b ?c ?d)] =>
      change (owned_by uid (new_UserProfile a b c d))
        with (bool_decide (sub user = uid)) end.
    case_bool_decide as Hu; [|lia]. subst uid.
    rewrite (count_none _ _ Hp). lia.
  - unfold put_profile.
    repeat (match goal with |- context [if ?x then _ else _] =>
              destruct x; [done|] end).
    unfold Profile_findOneAndUpdate.
    destruct (cast_UpdateData E _) as [u|]; [|done].
    pose proof (count_upsert E now (sub user) uid u (profiles db) Hdb) as Hle.
    by destruct (upsert E now (sub user) u (profiles db)) as [? ?].
  - done.
  - unfold post_task. by destruct (validateTitle _).
  - destruct (put_task_write E now user id t c db)
      as [->|(i & T & _ & _ & _ & _ & _ & ->)]; done.
  - destruct (delete_task_write user id db)
      as [->|(i & T & _ & _ & _ & ->)]; done.
Qed.

(** X14.  After a PUT /profile that is accepted (its text members
    pass validation and its preferences, if any, can be cast), a GET
    /profile by the same user writes nothing and answers with the
    profile the PUT stored, read back at the time of the GET.  Both
    answers are this stored profile with the schema defaults filled in:
    they are the same whenever the stored profile has a creation date,
    and otherwise each carries the time of its own read as
    createdAt. *)
Theorem put_profile_then_get (E : Env) (now now' : Z) (auth : option jsstring)
    (user : Claims) (b : ProfileBody) (db : DB) :
  jwtCheck E auth = inr user →
  ¬ fails_validation E b →
  ¬ preferences_rejected E b →
  let put := serve E now {| authorization := auth; route := PutProfile b |} db in
  let get := serve E now' {| authorization := auth; route := GetProfile |} put.2 in
  ∃ stored,
    Profile_findOne (sub user) (profiles put.2) = Some stored
    ∧ put.1 = ok (JsonProfile (hydrate now stored))
    ∧ get = (ok (JsonProfile (hydrate now' stored)), put.2)
    ∧ (createdAt stored ≠ None → hydrate now' stored = hydrate now stored)
    ∧ (createdAt stored = None →
       createdAt (hydrate now stored) = Some now
       ∧ createdAt (hydrate now' stored) = Some now').
Proof.
  intros Ha Hok Hacc. cbv zeta.
  assert (∀ r, authenticated_as E {| authorization := auth; route := r |} user)
    as Hauth by done.
  rewrite !(serve_authenticated _ _ _ _ _ (Hauth _)). cbn [route].
  destruct (put_profile_accepted E now user b db Hok Hacc)
    as (p & ps' & -> & Hf & _ & _ & _ & _ & _ & _ & Hup & _).
  exists p. cbn [fst snd with_profiles profiles].
  split; [done|]. split; [done|].
  split; [by apply get_profile_present|]. split.
  - intros Hc. unfold hydrate. rewrite Hup.
    by destruct (createdAt p).
  - intros Hc. unfold hydrate. cbn. by rewrite Hc.
Qed.

Lemma put_profile_then_get_witness :
  let b := {| body_displayName := JStr (lit "Alice L.");
              body_avatar := JUndefined;
              body_bio := JUndefined;
              body_preferences := None |} in
  let put := serve (example_env true) 5 (from_alice (PutProfile b)) example_db in
  ∃ stored,
    put.1 = ok (JsonProfile (hydrate 5 stored))
    ∧ serve (example_env true) 6 (from_alice GetProfile) put.2
      = (ok (JsonProfile (hydrate 6 stored)), put.2).
Proof.
  intros b.
  destruct (put_profile_then_get (example_env true) 5 6
              (Some (lit "Bearer alice.jwt")) alice b example_db)
    as (stored & _ & Hput & Hget & _).
  - reflexivity.
  - intros [[_ H]|[[H _]|[H _]]]; [discriminate H|by destruct H..].
  - intros (value & H & _). discriminate H.
  - exists stored. split; [exact Hput|exact Hget].
Defined.

(** Where an upsert inserts without the schema defaults, the stored
    profile has no creation date: the PUT answers with the time of the
    PUT as createdAt, a later GET with the time of the GET. *)
Example created_at_of_an_upserted_profile :
  let E := {| jwt_verify := jwt_verify (example_env true);
              url_parses := url_parses (example_env true);
              omitUndefined := true;
              setDefaultsOnInsert := false;
              number_toString := number_toString (example_env true);
              cast_other_preferences := λ _, None |} in
  let b := {| body_displayName := JStr (lit "Alice L.");
              body_avatar := JUndefined;
              body_bio := JUndefined;
              body_preferences := None |} in
  let put := serve E 5 (from_alice (PutProfile b)) example_db in
  let get := serve E 6 (from_alice GetProfile) put.2 in
  ∃ p q, put.1 = ok (JsonProfile p) ∧ get.1 = ok (JsonProfile q)
         ∧ createdAt p = Some 5%Z ∧ createdAt q = Some 6%Z
         ∧ preferences p = Some default_preferences
         ∧ (createdAt <$> Profile_findOne (sub alice) (profiles put.2))
           = Some None.
Proof. vm_compute. eexists _, _. by repeat split. Qed.

(** ** Lengths of the stored profile texts *)

Lemma angle_is_not_white (c : N) : isAngle c = true → isWhiteSpace c = false.
Proof.
  unfold isAngle. intros [->%N.eqb_eq | ->%N.eqb_eq]%orb_true_iff; reflexivity.
Qed.

Lemma trimStart_stripAngles (s : jsstring) :
  trimStart (stripAngles (trimStart s)) = trimStart (stripAngles s).
Proof.
  induction s as [|c s IH]; [done|]. cbn [trimStart].
  destruct (isWhiteSpace c) eqn:Hw; [|done].
  rewrite IH. unfold stripAngles. cbn [List.filter].
  destruct (isAngle c) eqn:Ha.
  - apply angle_is_not_white in Ha. congruence.
  - cbn. by rewrite Hw.
Qed.

Lemma trimEnd_stripAngles (s : jsstring) :
  trimEnd (stripAngles (trimEnd s)) = trimEnd (stripAngles s).
Proof.
  unfold trimEnd, stripAngles.
  rewrite <- !List.filter_rev, rev_involutive.
  f_equal. apply trimStart_stripAngles.
Qed.

Lemma trimStart_suffix (s : jsstring) : ∃ l, s = l ++ trimStart s.
Proof.
  induction s as [|c s [l IH]]; [by exists []|]. cbn.
  destruct (isWhiteSpace c); [|by exists []].
  exists (c :: l). cbn. by rewrite <- IH.
Qed.

Lemma trimEnd_length (s : jsstring) : (length (trimEnd s) ≤ length s)%nat.
Proof.
  unfold trimEnd. rewrite length_rev.
  etrans; [apply trimStart_length|]. by rewrite length_rev.
Qed.

Lemma trimEnd_suffix_length (l m : jsstring) :
  (length (trimEnd m) ≤ length (trimEnd (l ++ m)))%nat.
Proof.
  unfold trimEnd. rewrite !length_rev, rev_app_distr, trimStart_app.
  destruct (trimStart (rev m)) as [|d u]; cbn; [lia|].
  rewrite length_app. lia.
Qed.

(** Trimming after the angle brackets are removed leaves no more than
    trimming alone. *)
Lemma trim_stripAngles_length (s : jsstring) :
  (length (trim (stripAngles s)) ≤ length (trim s))%nat.
Proof.
  unfold trim at 1. rewrite <- trimStart_stripAngles.
  set (t := trimStart s).
  destruct (trimStart_suffix (stripAngles t)) as [l Hl].
  etrans; [apply (trimEnd_suffix_length l)|]. rewrite <- Hl.
  rewrite <- (trimEnd_stripAngles t).
  etrans; [apply trimEnd_length|]. apply stripAngles_length.
Qed.

Lemma validateDisplayName_sanitized_length (v : jsval) :
  validateDisplayName v = true → (length (sanitizeInput v) ≤ 50)%nat.
Proof.
  destruct v as [| | | |s|]; try done. unfold validateDisplayName.
  intros [_ H%Nat.leb_le]%andb_true_iff. rewrite sanitizeInput_string.
  etrans; [apply trim_stripAngles_length|done].
Qed.

Lemma validateBio_sanitized_length (v : jsval) :
  validateBio v = true → (length (sanitizeInput v) ≤ 500)%nat.
Proof.
  destruct v as [| | | |s|]; cbn [sanitizeInput length]; try lia.
  intros H%Nat.leb_le. etrans; [apply sanitizeInput_length|done].
Qed.

Lemma validateAvatarUrl_sanitized_length (parses : jsstring → bool) (v : jsval) :
  validateAvatarUrl parses v = true → (length (sanitizeInput v) ≤ 500)%nat.
Proof.
  destruct v as [| | | |s|]; cbn [sanitizeInput length]; try lia.
  unfold validateAvatarUrl. intros H.
  etrans; [apply sanitizeInput_length|].
  destruct s as [|c s]; [cbn; lia|]. cbn [truthy negb] in H.
  rewrite bool_decide_eq_false_2 in H by done. cbn [negb] in H.
  destruct (500 <? length (c :: s))%nat eqn:Hlen; [done|].
  by apply Nat.ltb_ge in Hlen.
Qed.

Lemma valid_when_present (f : jsval → bool) (v : jsval) :
  ¬ (v ≠ JUndefined ∧ f v = false) → v ≠ JUndefined → f v = true.
Proof. intros Hn Hv. destruct (f v) eqn:Hf; [done|]. by destruct Hn. Qed.

Lemma present_member_stored (v : jsval) (old new : option jsstring) :
  v ≠ JUndefined → text_member_stored v old new →
  new = Some (toWellFormed (sanitizeInput v)).
Proof. by destruct v. Qed.

(** X15.  The upper limits do hold of what PUT /profile stores: when
    the request is accepted (its text members pass validation and its
    preferences, if any, can be cast), a display name sent with it is
    stored with at most 50 code units, a bio with at most 500 and an
    avatar with at most 500, each being the sanitized text of the
    member in the form the store holds text (a surrogate code unit
    without its partner is held as U+FFFD). *)
Theorem put_profile_stores_within_upper_limits (E : Env) (now : Z)
    (req : Request) (user : Claims) (b : ProfileBody) (db : DB) :
  authenticated_as E req user →
  route req = PutProfile b →
  ¬ fails_validation E b →
  ¬ preferences_rejected E b →
  ∃ p, Profile_findOne (sub user) (profiles (serve E now req db).2) = Some p
       ∧ (body_displayName b ≠ JUndefined →
          displayName p
          = Some (toWellFormed (sanitizeInput (body_displayName b)))
          ∧ (length (toWellFormed (sanitizeInput (body_displayName b)))
             ≤ 50)%nat)
       ∧ (body_bio b ≠ JUndefined →
          bio p = Some (toWellFormed (sanitizeInput (body_bio b)))
          ∧ (length (toWellFormed (sanitizeInput (body_bio b))) ≤ 500)%nat)
       ∧ (body_avatar b ≠ JUndefined →
          avatar p = Some (toWellFormed (sanitizeInput (body_avatar b)))
          ∧ (length (toWellFormed (sanitizeInput (body_avatar b)))
             ≤ 500)%nat).
Proof.
  intros Ha Hr Hok Hacc. rewrite (serve_authenticated _ _ _ _ _ Ha), Hr.
  destruct (put_profile_accepted E now user b db Hok Hacc)
    as (p & ps' & -> & Hf & _ & Hd & Hb & Hv & _).
  exists p. cbn [snd with_profiles profiles]. split; [done|].
  split; [|split]; intros Hpresent;
    (split; [by eapply present_member_stored|]);
    rewrite toWellFormed_length.
  - apply validateDisplayName_sanitized_length.
    apply valid_when_present; [|done]. intros H. apply Hok. by left.
  - apply validateBio_sanitized_length.
    apply valid_when_present; [|done]. intros H. apply Hok. right. by left.
  - apply (validateAvatarUrl_sanitized_length (url_parses E)).
    apply valid_when_present; [|done]. intros H. apply Hok. right. by right.
Qed.

Lemma put_profile_stores_within_upper_limits_witness :
  let b := {| body_displayName := JStr (lit " <b>Alice</b> ");
              body_avatar := JUndefined;
              body_bio := JUndefined;
              body_preferences := None |} in
  ∃ p, Profile_findOne (sub alice)
         (profiles (serve (example_env true) 5 (from_alice (PutProfile b))
                      example_db).2) = Some p
       ∧ displayName p = Some (lit "bAlice/b").
Proof.
  intros b.
  destruct (put_profile_stores_within_upper_limits (example_env true) 5
              (from_alice (PutProfile b)) alice b example_db)
    as (p & Hp & Hd & _).
  - reflexivity.
  - reflexivity.
  - intros [[_ H]|[[H _]|[H _]]]; [discriminate H|by destruct H..].
  - intros (value & H & _). discriminate H.
  - exists p. split; [exact Hp|]. apply Hd. discriminate.
Defined.

(** ** The generated avatar *)

Lemma alnum_is_not_angle (c : N) : isAlnum c = true → isAngle c = false.
Proof.
  destruct (isAngle c) eqn:Ha; [|done]. unfold isAngle in Ha.
  apply orb_true_iff in Ha as [->%N.eqb_eq | ->%N.eqb_eq]; by vm_compute.
Qed.

Lemma trimEnd_snoc (s : jsstring) (c : N) :
  isWhiteSpace c = false → trimEnd (s ++ [c]) = s ++ [c].
Proof.
  intros Hc. unfold trimEnd. rewrite rev_app_distr. cbn. rewrite Hc.
  cbn. by rewrite rev_involutive.
Qed.

(** X16.  The avatar address generated for any user id is the fixed
    address with a seed of at most ten letters and digits in it; it has
    at most 98 code units and [sanitizeInput] leaves it unchanged, so it
    survives being sent back through PUT /profile. *)
Theorem generateShapesAvatar_shape (uid : jsstring) :
  ∃ seed,
    generateShapesAvatar uid
    = lit "https://api.dicebear.com/7.x/shapes/svg?seed=" ++ seed
      ++ lit "&backgroundColor=0f0f23&primaryColor=6366f1"
    ∧ (length seed ≤ 10)%nat
    ∧ Forall (λ c, isAlnum c = true) seed
    ∧ (length (generateShapesAvatar uid) ≤ 98)%nat
    ∧ sanitizeInput (JStr (generateShapesAvatar uid)) = generateShapesAvatar uid.
Proof.
  unfold generateShapesAvatar.
  set (seed := take 10 (List.filter isAlnum (base64 (utf8 uid)))).
  assert (length seed ≤ 10)%nat as Hlen.
  { unfold seed. rewrite length_take. lia. }
  assert (Forall (λ c, isAlnum c = true) seed) as Halnum.
  { apply Forall_take, List.Forall_forall. intros c Hc.
    by apply List.filter_In in Hc as [_ Hc]. }
  exists seed. cbv zeta.
  set (url := lit "https://api.dicebear.com/7.x/shapes/svg?seed=" ++ seed
              ++ lit "&backgroundColor=" ++ lit "0f0f23"
              ++ lit "&primaryColor=" ++ lit "6366f1").
  assert (url = lit "https://api.dicebear.com/7.x/shapes/svg?seed=" ++ seed
                ++ lit "&backgroundColor=0f0f23&primaryColor=6366f1") as Hurl
    by done.
  split; [done|]. split; [done|]. split; [done|]. split.
  { rewrite Hurl, !length_app. cbn. lia. }
  rewrite sanitizeInput_string.
  assert (angle_free url) as Hfree.
  { rewrite Hurl. apply Forall_app. split; [by repeat constructor|].
    apply Forall_app. split; [|by repeat constructor].
    eapply Forall_impl; [exact Halnum|]. apply alnum_is_not_angle. }
  rewrite stripAngles_fixed by done.
  unfold trim. replace (trimStart url) with url by done.
  rewrite Hurl.
  change (lit "&backgroundColor=0f0f23&primaryColor=6366f1")
    with (lit "&backgroundColor=0f0f23&primaryColor=6366f" ++ [49]).
  rewrite !app_assoc. by apply trimEnd_snoc.
Qed.

(** The seed is cut from the start of the base64 text of the user id:
    for every id that begins with "auth0|" the seed begins with
    "YXV0aDB8" and only its last two characters depend on the rest of
    the id. *)
Lemma generateShapesAvatar_auth0_prefix (rest : jsstring) :
  generateShapesAvatar (lit "auth0|" ++ rest)
  = lit "https://api.dicebear.com/7.x/shapes/svg?seed=YXV0aDB8"
    ++ take 2 (List.filter isAlnum (base64 (utf8 rest)))
    ++ lit "&backgroundColor=0f0f23&primaryColor=6366f1".
Proof. reflexivity. Qed.

(** ** The client's inputs and the server's checks *)

Lemma take_stripAngles_angle_free (n : nat) (raw : jsstring) :
  angle_free (take n (stripAngles raw)).
Proof. apply Forall_take, stripAngles_angle_free. Qed.

Lemma sanitizeInput_of_angle_free (s : jsstring) :
  angle_free s → sanitizeInput (JStr s) = trim s.
Proof. intros H. by rewrite sanitizeInput_string, stripAngles_fixed. Qed.

(** X18.  Text that has gone through the SecureInput component is
    never refused by the server: whatever was typed, the value the
    component hands on has at most 100 code units and no angle bracket,
    and when [addTask] sends it (it is not blank) POST /tasks answers
    200 and stores it trimmed. *)
Theorem secure_input_title_is_accepted (E : Env) (now : Z)
    (auth : option jsstring) (user : Claims) (typed : jsstring) (r : Route)
    (db : DB) :
  jwtCheck E auth = inr user →
  let newTask := SecureInput_onChange typed in
  addTask newTask = Some r →
  (length newTask ≤ MAX_LENGTH)%nat
  ∧ angle_free newTask
  ∧ ∃ id, (serve E now {| authorization := auth; route := r |} db).1
          = ok (JsonTask id {| title := trim newTask;
                               completed := Some false;
                               completedAt := None;
                               userId := sub user |}).
Proof.
  intros Ha newTask Hr. unfold addTask in Hr.
  case_bool_decide as Hblank; [done|]. injection Hr as <-.
  assert (angle_free newTask) as Hfree by apply take_stripAngles_angle_free.
  assert (length newTask ≤ MAX_LENGTH)%nat as Hlen.
  { unfold newTask, SecureInput_onChange. rewrite length_take. lia. }
  split; [done|]. split; [done|].
  assert (authenticated_as E
            {| authorization := auth; route := PostTasks (JStr newTask) |} user)
    as Hauth by done.
  rewrite (serve_authenticated _ _ _ _ _ Hauth). cbn [route].
  assert (validateTitle (JStr (sanitizeInput (JStr newTask))) = true) as Hv.
  { apply validateTitle_sanitized.
    rewrite sanitizeInput_of_angle_free by done.
    pose proof (trim_length newTask). unfold MAX_LENGTH in Hlen.
    destruct (trim newTask); [done|]. cbn in *. lia. }
  destruct (post_task_valid user (JStr newTask) db Hv) as [_ ->].
  eexists. cbn [fst]. by rewrite sanitizeInput_of_angle_free.
Qed.

Lemma secure_input_title_is_accepted_witness :
  ∃ id, (serve (example_env true) 5
           (from_alice (PostTasks (JStr (lit " call mum "))))
           example_db).1
        = ok (JsonTask id {| title := lit "call mum";
                             completed := Some false;
                             completedAt := None;
                             userId := sub alice |}).
Proof.
  refine (proj2 (proj2 (secure_input_title_is_accepted (example_env true) 5
                          (Some (lit "Bearer alice.jwt")) alice
                          (lit " call <mum> ")
                          (PostTasks (JStr (lit " call mum "))) example_db
                          _ _))).
  - reflexivity.
  - reflexivity.
Defined.

(** X19.  What the profile dialog sends is never refused either: with
    the display name and the bio entered through [handleInputChange],
    [saveProfile] sends nothing for a blank name and otherwise a request
    that PUT /profile accepts; the display name then stored is the
    trimmed name of the form, in the form the store holds text (a
    surrogate code unit without its partner, as the cut at the maximal
    length can leave one, is held as U+FFFD), and has between 1 and 50
    code units; the answer is the stored profile as it is read back. *)
Theorem profile_form_is_accepted (E : Env) (now : Z) (auth : option jsstring)
    (user : Claims) (typed_name typed_bio : jsstring) (prev : FormData)
    (r : Route) (db : DB) :
  jwtCheck E auth = inr user →
  let formData :=
    handleInputChange (lit "bio") typed_bio
      (handleInputChange (lit "displayName") typed_name prev) in
  saveProfile formData = Some r →
  ∃ p, serve E now {| authorization := auth; route := r |} db
       = (ok (JsonProfile (hydrate now p)),
          (serve E now {| authorization := auth; route := r |} db).2)
       ∧ Profile_findOne (sub user)
           (profiles (serve E now {| authorization := auth; route := r |} db).2)
         = Some p
       ∧ displayName p
         = Some (toWellFormed (trim (form_displayName formData)))
       ∧ (1 ≤ length (toWellFormed (trim (form_displayName formData))) ≤ 50)%nat
       ∧ bio p = Some (toWellFormed (trim (form_bio formData))).
Proof.
  intros Ha formData Hr. unfold saveProfile in Hr.
  case_bool_decide as Hblank; [done|]. injection Hr as <-.
  set (dn := take 50 (stripAngles typed_name)) in *.
  set (bi := take 500 (stripAngles typed_bio)) in *.
  change (form_displayName formData) with dn in *.
  change (form_bio formData) with bi in *.
  assert (angle_free dn) as Hdn by apply take_stripAngles_angle_free.
  assert (angle_free bi) as Hbi by apply take_stripAngles_angle_free.
  assert (1 ≤ length (trim dn) ≤ 50)%nat as Hlen.
  { pose proof (trim_length dn) as Hle.
    assert (length dn ≤ 50)%nat by (unfold dn; rewrite length_take; lia).
    destruct (trim dn); [done|]. cbn in *. lia. }
  set (b := {| body_displayName := JStr dn; body_avatar := JUndefined;
               body_bio := JStr bi; body_preferences := None |}).
  assert (¬ fails_validation E b) as Hok.
  { intros [[_ H]|[[_ H]|[H _]]]; [| |done].
    - change (validateDisplayName (JStr dn) = false) in H.
      unfold validateDisplayName in H. cbv zeta in H.
      apply andb_false_iff in H as [H%Nat.ltb_ge|H%Nat.leb_gt]; lia.
    - change (validateBio (JStr bi) = false) in H.
      unfold validateBio in H. apply Nat.leb_gt in H.
      assert (length bi ≤ 500)%nat by (unfold bi; rewrite length_take; lia).
      lia. }
  assert (¬ preferences_rejected E b) as Hacc.
  { intros (value & H & _). discriminate H. }
  assert (authenticated_as E {| authorization := auth; route := PutProfile b |}
            user) as Hauth by done.
  rewrite (serve_authenticated _ _ _ _ _ Hauth). cbn [route].
  destruct (put_profile_accepted E now user b db Hok Hacc)
    as (p & ps' & -> & Hf & _ & Hd & Hb & _).
  exists p. cbn [fst snd with_profiles profiles].
  split; [done|]. split; [done|].
  cbn [text_member_stored b body_displayName body_bio] in Hd, Hb.
  rewrite sanitizeInput_of_angle_free in Hd, Hb by done.
  by rewrite toWellFormed_length.
Qed.

Lemma profile_form_is_accepted_witness :
  let formData :=
    handleInputChange (lit "bio") (lit "I <3 lists")
      (handleInputChange (lit "displayName") (lit " <Alice> ")
         {| form_displayName := []; form_avatar := []; form_bio := [] |}) in
  ∃ r p, saveProfile formData = Some r
         ∧ (serve (example_env true) 5 (from_alice r) example_db).1
           = ok (JsonProfile (hydrate 5 p))
         ∧ displayName p = Some (lit "Alice")
         ∧ bio p = Some (lit "I 3 lists").
Proof.
  intros formData.
  destruct (profile_form_is_accepted (example_env true) 5
              (Some (lit "Bearer alice.jwt")) alice (lit " <Alice> ")
              (lit "I <3 lists")
              {| form_displayName := []; form_avatar := []; form_bio := [] |}
              (PutProfile
                 {| body_displayName := JStr (lit " Alice ");
                    body_avatar := JUndefined;
                    body_bio := JStr (lit "I 3 lists");
                    body_preferences := None |}) example_db)
    as (p & Hs & _ & Hd & _ & Hb).
  - reflexivity.
  - reflexivity.
  - eexists _, p. split; [reflexivity|].
    split; [exact (f_equal fst Hs)|]. split; [exact Hd|exact Hb].
Defined.

(** ** The list the client shows *)

Lemma all_completed_split (l : list (N * Task)) :
  Forall (λ y, is_completed y = true) l →
  filteredTasks ShowActive l = [] ∧ filteredTasks ShowCompleted l = l.
Proof.
  unfold filteredTasks. induction 1 as [|y l Hy _ [IH1 IH2]]; [done|].
  cbn [List.filter]. rewrite Hy. cbn [negb]. by rewrite IH1, IH2.
Qed.

Lemma sorted_active_then_completed (l : list (N * Task)) :
  StronglySorted sort_le l →
  l = filteredTasks ShowActive l ++ filteredTasks ShowCompleted l.
Proof.
  induction 1 as [|x l Hl IH Hx]; [done|].
  destruct (is_completed x) eqn:Hc.
  - assert (Forall (λ y, is_completed y = true) (x :: l)) as Hall.
    { constructor; [done|].
      eapply Forall_impl; [exact Hx|]. intros y Hxy.
      unfold is_completed in *. apply bool_decide_eq_true in Hc.
      apply bool_decide_eq_true. unfold sort_le in Hxy. rewrite Hc in Hxy.
      destruct (completed y.2) as [[]|]; cbn in Hxy; [done|lia..]. }
    by destruct (all_completed_split _ Hall) as [-> ->].
  - unfold filteredTasks in *. cbn [List.filter]. rewrite Hc. cbn [negb].
    cbn [app]. by rewrite <- IH.
Qed.

(** X20.  The list GET /tasks returns is what the client shows under
    "all": it is the list shown under "active" followed by the list
    shown under "completed", and the two counters beside the buttons
    add up to its length. *)
Theorem fetched_tasks_split_by_filter (E : Env) (now : Z) (req : Request)
    (user : Claims) (db : DB) :
  authenticated_as E req user →
  route req = GetTasks →
  ∃ fetched,
    (serve E now req db).1 = ok (JsonTasks fetched)
    ∧ filteredTasks ShowAll fetched = fetched
    ∧ fetched = filteredTasks ShowActive fetched
                ++ filteredTasks ShowCompleted fetched
    ∧ (activeCount fetched + completedCount fetched = length fetched)%nat.
Proof.
  intros Ha Hr. rewrite (serve_authenticated _ _ _ _ _ Ha), Hr.
  exists (Task_find_sorted (sub user) (tasks db)).
  split; [done|]. split.
  { unfold filteredTasks. induction (Task_find_sorted _ _) as [|x l IH];
      [done|]. cbn. by rewrite IH. }
  split.
  { apply sorted_active_then_completed, Task_find_sorted_spec. }
  unfold activeCount, completedCount. rewrite Nat.add_comm.
  apply List.filter_length.
Qed.

Lemma fetched_tasks_split_by_filter_witness :
  ∃ fetched,
    (serve (example_env true) 5 (from_alice GetTasks) example_db).1
    = ok (JsonTasks fetched)
    ∧ (activeCount fetched + completedCount fetched = length fetched)%nat.
Proof.
  destruct (fetched_tasks_split_by_filter (example_env true) 5
              (from_alice GetTasks) alice example_db)
    as (l & Hl & _ & _ & Hc).
  - reflexivity.
  - reflexivity.
  - exists l. split; [exact Hl|exact Hc].
Defined.

(** ** New users *)

(** X21.  The profile that the first GET /profile creates is taken for
    a new user's by the client, provided the client's Auth0 user object
    carries the name and the email of the token: its bio is empty and
    its display name is that name, that email or 'User'. *)
Theorem created_profile_is_new_user (E : Env) (now : Z) (req : Request)
    (claims : Claims) (user : Auth0User) (db : DB) :
  authenticated_as E req claims →
  route req = GetProfile →
  Profile_findOne (sub claims) (profiles db) = None →
  user_name user = name claims →
  user_email user = email claims →
  ∃ p, (serve E now req db).1 = ok (JsonProfile p) ∧ isNewUser user p = true.
Proof.
  intros Ha Hr Hn Hname Hemail.
  rewrite (serve_authenticated _ _ _ _ _ Ha), Hr.
  rewrite get_profile_absent by done. cbv zeta. eexists. split; [done|].
  unfold isNewUser. cbn [bio displayName new_UserProfile is_blank andb].
  rewrite Hname, Hemail. unfold js_or.
  destruct (name claims) as [n|]; [destruct (truthy (JStr n)) eqn:Hn'|].
  - rewrite (bool_decide_eq_true_2 (Some n = Some n)) by done.
    by rewrite orb_true_r.
  - destruct (email claims) as [e|]; [destruct (truthy (JStr e))|].
    + rewrite (bool_decide_eq_true_2 (Some e = Some e)) by done.
      by rewrite !orb_true_r.
    + by rewrite !orb_true_r.
    + by rewrite !orb_true_r.
  - destruct (email claims) as [e|]; [destruct (truthy (JStr e))|].
    + rewrite (bool_decide_eq_true_2 (Some e = Some e)) by done.
      by rewrite !orb_true_r.
    + by rewrite !orb_true_r.
    + by rewrite !orb_true_r.
Qed.

Lemma created_profile_is_new_user_witness :
  ∃ p, (serve (example_env true) 5 (from_bob GetProfile) example_db).1
       = ok (JsonProfile p)
       ∧ isNewUser {| user_name := None;
                      user_email := Some (lit "bob@example.com") |} p = true.
Proof.
  apply (created_profile_is_new_user (example_env true) 5
           (from_bob GetProfile) bob); reflexivity.
Defined.

(** ** Toggling and editing through the client *)

Lemma clean_title_is_kept (t : jsstring) :
  title_clean t →
  sanitizeInput (JStr t) = t ∧ validateTitle (JStr (sanitizeInput (JStr t))) = true.
Proof.
  intros (Hfree & Htrim & Hlen).
  assert (sanitizeInput (JStr t) = t) as Heq
    by (by rewrite sanitizeInput_of_angle_free).
  split; [done|]. apply validateTitle_sanitized. by rewrite Heq.
Qed.

(** X22.  In any store reachable from the empty one, the request the
    client's [toggleComplete] sends for a task of the caller is
    accepted and changes nothing but the completion: the title and the
    owner stay, the flag is inverted, and the completion date is the
    time of the request when the task becomes completed and null when it
    becomes open again. *)
Theorem toggleComplete_flips_completion (E : Env) (now : Z)
    (auth : option jsstring) (user : Claims) (reqs : list (Z * Request))
    (id : N) (T : Task) :
  let db := run E reqs empty_db in
  jwtCheck E auth = inr user →
  tasks db !! id = Some T →
  userId T = sub user →
  ∃ T', serve E now {| authorization := auth; route := toggleComplete id T |} db
        = (ok (JsonTask id T'), with_tasks db (<[id := T']> (tasks db)))
        ∧ title T' = title T
        ∧ userId T' = userId T
        ∧ completed T' = Some (negb (is_completed (id, T)))
        ∧ completedAt T' = (if is_completed (id, T) then None else Some now).
Proof.
  intros db Ha HT Hu.
  assert (titles_clean db) as Hclean.
  { apply run_invariant; [apply titles_clean_step|apply titles_clean_empty]. }
  assert (titles_held db) as Hheld.
  { apply run_invariant; [apply titles_held_step|apply titles_held_empty]. }
  destruct (clean_title_is_kept (title T) (Hclean id T HT)) as [Hkeep Hv].
  set (c := JBool (negb (bool_decide (completed T = Some true)))).
  assert (castBoolean c ≠ CastError) as Hc.
  { unfold c. by destruct (bool_decide (completed T = Some true)). }
  rewrite (put_task_accepted E now _ user db id T (JStr (title T)) c)
    by done.
  eexists. split; [done|]. unfold updated_task, is_completed, c.
  cbn [title userId completed completedAt snd].
  rewrite Hkeep, (Hheld id T HT).
  by destruct (bool_decide (completed T = Some true)).
Qed.

Lemma toggleComplete_flips_completion_witness :
  ∃ T', (serve (example_env true) 7 (from_alice (toggleComplete 0 milk))
           (run (example_env true)
              [(1%Z, from_alice (PostTasks (JStr (lit "Buy milk"))))]
              empty_db)).1 = ok (JsonTask 0 T')
        ∧ title T' = lit "Buy milk"
        ∧ completed T' = Some true
        ∧ completedAt T' = Some 7%Z.
Proof.
  destruct (toggleComplete_flips_completion (example_env true) 7
              (Some (lit "Bearer alice.jwt")) alice
              [(1%Z, from_alice (PostTasks (JStr (lit "Buy milk"))))] 0 milk)
    as (T' & Hs & Ht & _ & Hc & Hd).
  - reflexivity.
  - reflexivity.
  - reflexivity.
  - exists T'. split; [exact (f_equal fst Hs)|].
    split; [exact Ht|]. split; [exact Hc|exact Hd].
Defined.

(** X23.  An edit typed through SecureInput is never refused for its
    title: when [saveEdit] sends it (it is not blank) for a task of the
    caller, PUT /tasks/:id answers 200 and the stored title is the
    trimmed text in the form the store holds text (a surrogate code unit
    without its partner, as the cut at the maximal length can leave one,
    is held as U+FFFD); it has between 1 and 100 code units. *)
Theorem secure_input_edit_is_accepted (E : Env) (now : Z)
    (auth : option jsstring) (user : Claims) (typed : jsstring) (r : Route)
    (db : DB) (id : N) (T : Task) :
  jwtCheck E auth = inr user →
  tasks db !! id = Some T →
  userId T = sub user →
  let editTaskTitle := SecureInput_onChange typed in
  saveEdit editTaskTitle id = Some r →
  ∃ T', (serve E now {| authorization := auth; route := r |} db).1
        = ok (JsonTask id T')
        ∧ tasks (serve E now {| authorization := auth; route := r |} db).2 !! id
          = Some T'
        ∧ title T' = toWellFormed (trim editTaskTitle)
        ∧ (1 ≤ length (title T') ≤ 100)%nat.
Proof.
  intros Ha HT Hu text Hr. unfold saveEdit in Hr.
  case_bool_decide as Hblank; [done|]. injection Hr as <-.
  assert (angle_free text) as Hfree by apply take_stripAngles_angle_free.
  assert (1 ≤ length (trim text) ≤ 100)%nat as Hlen.
  { pose proof (trim_length text).
    assert (length text ≤ 100)%nat
      by (unfold text, SecureInput_onChange, MAX_LENGTH;
          rewrite length_take; lia).
    destruct (trim text); [done|]. cbn in *. lia. }
  assert (validateTitle (JStr (sanitizeInput (JStr text))) = true) as Hv.
  { apply validateTitle_sanitized. by rewrite sanitizeInput_of_angle_free. }
  rewrite (put_task_accepted E now _ user db id T (JStr text) JUndefined)
    by done.
  eexists. split; [done|]. cbn [snd with_tasks tasks].
  split; [apply lookup_insert_eq|]. cbn [updated_task title].
  rewrite sanitizeInput_of_angle_free by done.
  by rewrite toWellFormed_length.
Qed.

Lemma secure_input_edit_is_accepted_witness :
  ∃ T', (serve (example_env true) 5
           (from_alice (PutTask (Some 0) (JStr (lit "Buy oat milk ")) JUndefined))
           example_db).1 = ok (JsonTask 0 T')
        ∧ title T' = lit "Buy oat milk".
Proof.
  destruct (secure_input_edit_is_accepted (example_env true) 5
              (Some (lit "Bearer alice.jwt")) alice (lit "Buy <oat> milk ")
              (PutTask (Some 0) (JStr (lit "Buy oat milk ")) JUndefined)
              example_db 0 milk)
    as (T' & Hs & _ & Ht & _).
  - reflexivity.
  - reflexivity.
  - reflexivity.
  - reflexivity.
  - exists T'. split; [exact Hs|exact Ht].
Defined.

(** The cut at the maximal length can split a surrogate pair: one
    hundred and one code units typed, the last two a pair, leave a
    title that ends in a high surrogate; the store holds U+FFFD in its
    place. *)
Example secure_input_splits_a_pair :
  let typed := replicate 99 97 ++ [55357; 56832] in
  let r := PutTask (Some 0) (JStr (SecureInput_onChange typed)) JUndefined in
  saveEdit (SecureInput_onChange typed) 0 = Some r
  ∧ (title <$> tasks (serve (example_env true) 5 (from_alice r) example_db).2
               !! 0)
    = Some (replicate 99 97 ++ [65533]).
Proof. vm_compute. done. Qed.

(** ** Where flag and date can part *)

(** X24.  An accepted PUT /tasks/:id stores a task that is completed
    exactly when it has a completion date, unless the completed member
    is one of the strings 'false', '0' and 'no', or is absent while the
    task was completed and the store leaves undefined members out of
    the update: for every other value the schema accepts, the truth
    value the handler uses and the cast the schema makes agree. *)
Theorem accepted_update_is_consistent (E : Env) (now : Z) (req : Request)
    (user : Claims) (db : DB) (id : N) (T : Task) (t c : jsval) :
  authenticated_as E req user →
  route req = PutTask (Some id) t c →
  tasks db !! id = Some T →
  userId T = sub user →
  validateTitle (JStr (sanitizeInput t)) = true →
  castBoolean c ≠ CastError →
  c ∉ [JStr (lit "false"); JStr (lit "0"); JStr (lit "no")] →
  (c = JUndefined → omitUndefined E = true → completed T ≠ Some true) →
  ∃ T', tasks (serve E now req db).2 !! id = Some T'
        ∧ completion_consistent T'.
Proof.
  intros Ha Hr HT Hu Hv Hc Hnot Hundef.
  rewrite (put_task_accepted E now _ user db id T t c) by done.
  eexists. cbn [snd with_tasks tasks]. split; [apply lookup_insert_eq|].
  unfold completion_consistent, updated_task. cbn [completed completedAt].
  unfold castBoolean in *.
  case_bool_decide as Htrue.
  { assert (truthy c = true) as ->; [|done].
    repeat (apply elem_of_cons in Htrue as [->|Htrue]; [done|]).
    by apply elem_of_nil in Htrue. }
  case_bool_decide as Hfalse.
  { assert (truthy c = false) as ->; [|by split].
    apply elem_of_cons in Hfalse as [->|Hfalse]; [done|].
    apply elem_of_cons in Hfalse as [->|Hfalse];
      [destruct Hnot; by left|].
    apply elem_of_cons in Hfalse as [->|Hfalse]; [done|].
    apply elem_of_cons in Hfalse as [->|Hfalse];
      [destruct Hnot; right; by left|].
    apply elem_of_cons in Hfalse as [->|Hfalse];
      [destruct Hnot; right; right; by left|].
    by apply elem_of_nil in Hfalse. }
  destruct c; try done.
  - cbn. destruct (omitUndefined E) eqn:Ho; [|by split].
    split; [|done]. intros Hcompl. by destruct (Hundef eq_refl eq_refl).
Qed.

Lemma accepted_update_is_consistent_witness :
  ∃ T', tasks (serve (example_env true) 5
                 (from_alice (PutTask (Some 0) (JStr (lit "Buy milk"))
                                (JStr (lit "yes")))) example_db).2 !! 0
        = Some T'
        ∧ completion_consistent T'.
Proof.
  apply (accepted_update_is_consistent (example_env true) 5 _ alice
           example_db 0 milk (JStr (lit "Buy milk")) (JStr (lit "yes"))).
  - reflexivity.
  - reflexivity.
  - reflexivity.
  - reflexivity.
  - reflexivity.
  - vm_compute. discriminate.
  - intros H. repeat (apply elem_of_cons in H as [H|H]; [discriminate H|]).
    by apply elem_of_nil in H.
  - discriminate.
Defined.

(** ** Avatars that coincide *)

Lemma base64_char_alnum (n : N) : n < 62 → isAlnum (base64_char n) = true.
Proof.
  intros Hn. unfold base64_char, isAlnum.
  destruct (N.ltb_spec n 26).
  - apply orb_true_iff. left. apply orb_true_iff. right.
    apply andb_true_iff. split; apply N.leb_le; lia.
  - destruct (N.ltb_spec n 52).
    + apply orb_true_iff. left. apply orb_true_iff. left.
      apply andb_true_iff. split; apply N.leb_le; lia.
    + destruct (N.ltb_spec n 62); [|lia].
      apply orb_true_iff. right.
      apply andb_true_iff. split; apply N.leb_le; lia.
Qed.

Lemma base64_first_two (a b : N) (more : list N) :
  ∃ tail, base64 (a :: b :: more)
          = base64_char (a / 4) :: base64_char (a mod 4 * 16 + b / 16) :: tail.
Proof. destruct more as [|c more]; cbn [base64]; by eexists. Qed.

Lemma seed_tail_of_ascii_pair (a b : N) (r : jsstring) :
  a < 128 → b < 128 →
  take 2 (List.filter isAlnum (base64 (utf8 (a :: b :: r))))
  = [base64_char (a / 4); base64_char (a mod 4 * 16 + b / 16)].
Proof.
  intros Ha Hb. cbn [utf8].
  rewrite (proj2 (N.ltb_lt a 128) Ha), (proj2 (N.ltb_lt b 128) Hb).
  destruct (base64_first_two a b (utf8 r)) as [tail ->].
  cbn [List.filter].
  assert (a / 4 < 62) as H1.
  { apply N.Div0.div_lt_upper_bound. lia. }
  assert (a mod 4 * 16 + b / 16 < 62) as H2.
  { pose proof (N.mod_upper_bound a 4).
    assert (b / 16 < 8) by (apply N.Div0.div_lt_upper_bound; lia). lia. }
  by rewrite !base64_char_alnum.
Qed.

(** X17.  Generated avatars are not unique per user: two user ids that
    begin with "auth0|" and agree in the next two (ASCII) characters get
    the same avatar address, however they continue. *)
Theorem auth0_avatars_coincide (a b : N) (r1 r2 : jsstring) :
  a < 128 → b < 128 →
  generateShapesAvatar (lit "auth0|" ++ a :: b :: r1)
  = generateShapesAvatar (lit "auth0|" ++ a :: b :: r2).
Proof.
  intros Ha Hb. rewrite !generateShapesAvatar_auth0_prefix.
  by rewrite !seed_tail_of_ascii_pair.
Qed.

Lemma auth0_avatars_coincide_witness :
  generateShapesAvatar (lit "auth0|abc123") = generateShapesAvatar (lit "auth0|abd999").
Proof.
  apply (auth0_avatars_coincide 97 98 (lit "c123") (lit "d999")).
  - reflexivity.
  - reflexivity.
Defined.
